(** * Ladybug core: a shallow embedding of [ladybug/core.py]

    The module under study is Python 2 code: [LBHeader], [LBData] and
    [DataList], the timestamped-value container with its grouping,
    filtering, update and aggregation methods.

    Python objects are references.  The embedding keeps an explicit store
    with one heap per kind of object ([LBData] samples, Python lists,
    headers and [DataList] instances); methods are state-passing functions
    that return either a value or a raised exception.  Numeric sample
    values are Python integers, modelled as [Z]. *)

From Stdlib Require Import ZArith String Ascii.
From stdpp Require Import gmap strings list fin_maps.

Local Open Scope Z_scope.

(** ** Exceptions and outcomes *)

(** The exceptions the code can raise.  [OutsideModel] is no Python
    exception: it marks a run that leaves the modelled fragment (a dangling
    reference, an expression the evaluator below does not cover). *)
Inductive exn : Set :=
  | ValueError
  | TypeError
  | AttributeError
  | IndexError
  | ZeroDivisionError
  | SyntaxError
  | OutsideModel.

Inductive outcome (A : Type) : Type :=
  | Ok (a : A)
  | Raise (e : exn).
Arguments Ok {A} a.
Arguments Raise {A} e.

(** ** Data model *)

(** Modelled from the spec: the timestamp class (LBDateTime) is not part
    of the file; the code reads its attributes [month], [day], [hour] and
    [HOY]. *)
Record LBDateTime : Set := mkDateTime {
  month : Z;
  day : Z;
  hour : Z;
  HOY : Z
}.

(** Modelled from the spec: the analysis-period collaborator, with the
    members the code uses (spec section 6): the inclusion test, the
    whole-year flag, the hour count and the ordered timestamps. *)
Record AnalysisPeriod : Type := mkPeriod {
  isTimeIncluded : LBDateTime -> bool;
  isAnnual : bool;
  totalNumOfHours : Z;
  dates : list LBDateTime
}.

(** The [analysisPeriod] attribute of a header holds either a string
    (['unknown'], ['N/A']) or a period object. *)
Inductive header_period : Type :=
  | PeriodStr (s : string)
  | PeriodObj (ap : AnalysisPeriod).

Record LBHeader : Type := mkHeader {
  city : string;
  dataType : string;
  unit_ : string;   (* the attribute [unit] *)
  frequency : string;
  analysisPeriod : header_period
}.

(** [LBData.__slots__ = ("__value", "datetime")]. *)
Record LBData : Set := mkData {
  value : Z;
  datetime : LBDateTime
}.

(** A [DataList] instance: [self.__data] refers to a Python list of
    samples, [self.header] to a header object. *)
Record DataList : Set := mkDataList {
  dl_data : nat;
  dl_header : nat
}.

(** What [print] writes, kept structured. *)
Inductive output : Type :=
  | MsgFoundMonths (keys : gset Z)
  | MsgFoundHours (keys : gset Z)
  | MsgUpdated (dt : string) (plural : bool) (updatedCount : Z)
  | MsgNeedValidPeriod
  | MsgLengths (n m : nat).

(** ** The store *)

Record world : Type := mkWorld {
  w_samples : gmap nat LBData;
  w_lists : gmap nat (list nat);
  w_headers : gmap nat LBHeader;
  w_series : gmap nat DataList;
  w_stdout : list output
}.

Definition set_samples (f : gmap nat LBData -> gmap nat LBData) (w : world) : world :=
  mkWorld (f (w_samples w)) (w_lists w) (w_headers w) (w_series w) (w_stdout w).
Definition set_lists (f : gmap nat (list nat) -> gmap nat (list nat)) (w : world) : world :=
  mkWorld (w_samples w) (f (w_lists w)) (w_headers w) (w_series w) (w_stdout w).
Definition set_headers (f : gmap nat LBHeader -> gmap nat LBHeader) (w : world) : world :=
  mkWorld (w_samples w) (w_lists w) (f (w_headers w)) (w_series w) (w_stdout w).
Definition set_series (f : gmap nat DataList -> gmap nat DataList) (w : world) : world :=
  mkWorld (w_samples w) (w_lists w) (w_headers w) (f (w_series w)) (w_stdout w).
Definition set_stdout (f : list output -> list output) (w : world) : world :=
  mkWorld (w_samples w) (w_lists w) (w_headers w) (w_series w) (f (w_stdout w)).

(** ** The state-and-exception monad *)

Definition M (A : Type) : Type := world -> outcome A * world.

Definition ret {A} (a : A) : M A := fun w => (Ok a, w).
Definition raise {A} (e : exn) : M A := fun w => (Raise e, w).
Definition bind {A B} (m : M A) (k : A -> M B) : M B :=
  fun w => match m w with
           | (Ok a, w') => k a w'
           | (Raise e, w') => (Raise e, w')
           end.

Notation "'let*' x ':=' m 'in' k" := (bind m (fun x => k))
  (at level 10, x name, m at level 100, k at level 200).
Notation "m ';;' k" := (bind m (fun _ => k))
  (at level 100, k at level 200, right associativity).

Definition print (o : output) : M unit :=
  fun w => (Ok tt, set_stdout (fun out => out ++ [o]) w).

(** Dereferencing. *)
Definition get_sample (d : nat) : M LBData :=
  fun w => match w_samples w !! d with
           | Some o => (Ok o, w)
           | None => (Raise OutsideModel, w)
           end.
Definition get_list (r : nat) : M (list nat) :=
  fun w => match w_lists w !! r with
           | Some l => (Ok l, w)
           | None => (Raise OutsideModel, w)
           end.
Definition get_header (h : nat) : M LBHeader :=
  fun w => match w_headers w !! h with
           | Some x => (Ok x, w)
           | None => (Raise OutsideModel, w)
           end.
Definition get_series (s : nat) : M DataList :=
  fun w => match w_series w !! s with
           | Some x => (Ok x, w)
           | None => (Raise OutsideModel, w)
           end.

(** Allocation: a new object gets an address no live object has. *)
Definition new_list (l : list nat) : M nat :=
  fun w => let r := fresh (dom (w_lists w)) in (Ok r, set_lists (insert r l) w).
Definition new_header (h : LBHeader) : M nat :=
  fun w => let r := fresh (dom (w_headers w)) in (Ok r, set_headers (insert r h) w).
Definition new_series (s : DataList) : M nat :=
  fun w => let r := fresh (dom (w_series w)) in (Ok r, set_series (insert r s) w).
Definition new_sample (o : LBData) : M nat :=
  fun w => let r := fresh (dom (w_samples w)) in (Ok r, set_samples (insert r o) w).

(** Sequencing over a list, left to right, stopping at the first
    exception. *)
Fixpoint mapM {A B} (f : A -> M B) (l : list A) : M (list B) :=
  match l with
  | [] => ret []
  | a :: rest =>
      let* b := f a in
      let* bs := mapM f rest in
      ret (b :: bs)
  end.

(** A list comprehension [[d for d in l if cond(d)]]. *)
Fixpoint list_comp (cond : nat -> M bool) (l : list nat) : M (list nat) :=
  match l with
  | [] => ret []
  | d :: rest =>
      let* b := cond d in
      let* ds := list_comp cond rest in
      ret (if b then d :: ds else ds)
  end.

(** ** Python [str] methods used by the statement check

    Strings are byte strings (Python 2 [str]); case mapping and
    classification are the ASCII ones of the C locale. *)

Definition is_upper (c : ascii) : bool :=
  (Nat.leb 65 (nat_of_ascii c) && Nat.leb (nat_of_ascii c) 90)%bool.
Definition is_lower (c : ascii) : bool :=
  (Nat.leb 97 (nat_of_ascii c) && Nat.leb (nat_of_ascii c) 122)%bool.
Definition is_digit (c : ascii) : bool :=
  (Nat.leb 48 (nat_of_ascii c) && Nat.leb (nat_of_ascii c) 57)%bool.

(** [c.isalpha()] for a one-character string. *)
Definition isalpha (c : ascii) : bool := (is_upper c || is_lower c)%bool.

Definition lower_char (c : ascii) : ascii :=
  if is_upper c then ascii_of_nat (nat_of_ascii c + 32) else c.

(** [s.lower()]. *)
Fixpoint py_lower (s : string) : string :=
  match s with
  | EmptyString => EmptyString
  | String c rest => String (lower_char c) (py_lower rest)
  end.

(** [s.replace(old, new)] for a non-empty [old]: occurrences are found
    left to right and do not overlap.  [skip] counts the characters of the
    occurrence just replaced that are still to be passed over. *)
Fixpoint replace_from (old new : string) (skip : nat) (s : string) : string :=
  match s with
  | EmptyString => EmptyString
  | String c rest =>
      match skip with
      | S k => replace_from old new k rest
      | O =>
          if String.prefix old s
          then (new +:+ replace_from old new (Nat.pred (String.length old)) rest)%string
          else String c (replace_from old new O rest)
      end
  end.

(** With an empty [old], Python puts [new] before every character and at
    the end. *)
Fixpoint intersperse_str (new : string) (s : string) : string :=
  match s with
  | EmptyString => new
  | String c rest => (new +:+ String c (intersperse_str new rest))%string
  end.

Definition py_replace (old new : string) (s : string) : string :=
  match old with
  | EmptyString => intersperse_str new s
  | _ => replace_from old new O s
  end.

(** The characters of a string, as iteration over it yields them. *)
Definition chars (s : string) : list ascii := list_ascii_of_string s.

(** [stStatement] of [checkInputStatement]: the lower-cased statement with
    the keywords removed, one after the other. *)
Definition stStatement (statement : string) : string :=
  py_replace "is" "" (py_replace "in" "" (py_replace "not" ""
    (py_replace "or" "" (py_replace "and" "" (py_lower statement))))).

(** [list(set(l))]: the distinct elements, in the set's own order. *)
Definition list_of_set (l : list ascii) : list ascii :=
  elements (list_to_set l : gset ascii).

(** [checkInputStatement(statement)]. *)
Definition checkInputStatement (statement : string) : M unit :=
  let l := filter (fun s => isalpha s = true) (chars (stStatement statement)) in
  if bool_decide (list_of_set l <> ["x"%char])
  then raise ValueError
  else ret tt.

(** ** The builtin [eval], on a fragment of Python 2 expressions

    [filterByConditionalStatement] hands a string to [eval].  The fragment
    modelled here: integer literals (decimal and hexadecimal), names,
    attribute access, the arithmetic operators, comparisons (chained as in
    Python), [not], [and], [or] and parentheses.  Whatever lies outside
    (floats, strings, calls, [in], [is], bit operations, ...) yields
    [OutsideModel]. *)

Definition obind {A B} (m : outcome A) (k : A -> outcome B) : outcome B :=
  match m with
  | Ok a => k a
  | Raise e => Raise e
  end.

Notation "'do' x '<-' m ';' k" := (obind m (fun x => k))
  (at level 10, x name, m at level 100, k at level 200).
Notation "'do' ''(' x ',' y ')' '<-' m ';' k" := (obind m (fun '(x, y) => k))
  (at level 10, x name, y name, m at level 100, k at level 200).

Inductive token : Set :=
  | TNum (z : Z)
  | TName (s : string)
  | TOp (s : string)
  | TLPar
  | TRPar
  | TDot.

Inductive lexstate : Set :=
  | LIdle
  | LZero                      (* the literal "0" so far *)
  | LDec (z : Z)               (* a decimal literal not starting with 0 *)
  | LHex0                      (* "0x" read, no digit yet *)
  | LHex (z : Z)
  | LName (rev : list ascii)
  | LOp (c : ascii)            (* one of  * / < > = !  that may be extended *)
  | LDot.

Definition is_name_start (c : ascii) : bool := (isalpha c || Ascii.eqb c "_")%bool.
Definition is_name_char (c : ascii) : bool := (is_name_start c || is_digit c)%bool.
Definition digit_val (c : ascii) : Z := Z.of_nat (nat_of_ascii c) - 48.
Definition hex_val (c : ascii) : option Z :=
  let n := Z.of_nat (nat_of_ascii c) in
  if is_digit c then Some (n - 48)
  else if (97 <=? n) && (n <=? 102) then Some (n - 87)
  else if (65 <=? n) && (n <=? 70) then Some (n - 55)
  else None.
Definition mem_char (c : ascii) (s : string) : bool :=
  existsb (Ascii.eqb c) (chars s).
Definition name_of (rev : list ascii) : string :=
  string_of_list_ascii (List.rev rev).

(** A character met with no token under way. *)
Definition lex_start (c : ascii) : outcome (list token * lexstate) :=
  if (Ascii.eqb c " " || Nat.eqb (nat_of_ascii c) 9)%bool then Ok ([], LIdle)
  else if Ascii.eqb c "0" then Ok ([], LZero)
  else if is_digit c then Ok ([], LDec (digit_val c))
  else if is_name_start c then Ok ([], LName [c])
  else if Ascii.eqb c "(" then Ok ([TLPar], LIdle)
  else if Ascii.eqb c ")" then Ok ([TRPar], LIdle)
  else if Ascii.eqb c "." then Ok ([], LDot)
  else if mem_char c "+-%" then Ok ([TOp (String c EmptyString)], LIdle)
  else if mem_char c "*/<>=!" then Ok ([], LOp c)
  else Raise OutsideModel.

(** The operator made of one character, when there is one. *)
Definition single_op (c : ascii) : outcome token :=
  if mem_char c "*/<>" then Ok (TOp (String c EmptyString)) else Raise OutsideModel.

Definition double_op (c1 c2 : ascii) : option (outcome token) :=
  let s := String c1 (String c2 EmptyString) in
  if existsb (String.eqb s) ["**"; "//"; "<="; ">="; "=="; "!="; "<>"]%string
  then Some (Ok (TOp s))
  else if existsb (String.eqb s) ["<<"; ">>"]%string then Some (Raise OutsideModel)
  else None.

Definition emit_then (t : token) (c : ascii) : outcome (list token * lexstate) :=
  do '(ts, st) <- lex_start c; Ok (t :: ts, st).

Definition lex_step (st : lexstate) (c : ascii) : outcome (list token * lexstate) :=
  match st with
  | LIdle => lex_start c
  | LZero =>
      if mem_char c "xX" then Ok ([], LHex0)
      else if (is_digit c || mem_char c ".oObBlLjJeE")%bool then Raise OutsideModel
      else emit_then (TNum 0) c
  | LDec z =>
      if is_digit c then Ok ([], LDec (10 * z + digit_val c))
      else if mem_char c ".lLjJeE" then Raise OutsideModel
      else emit_then (TNum z) c
  | LHex0 =>
      match hex_val c with
      | Some d => Ok ([], LHex d)
      | None => Raise OutsideModel
      end
  | LHex z =>
      match hex_val c with
      | Some d => Ok ([], LHex (16 * z + d))
      | None => if mem_char c "lL" then Raise OutsideModel else emit_then (TNum z) c
      end
  | LName rev =>
      if is_name_char c then Ok ([], LName (c :: rev))
      else emit_then (TName (name_of rev)) c
  | LOp c1 =>
      match double_op c1 c with
      | Some r => do t <- r; Ok ([t], LIdle)
      | None => do t <- single_op c1; emit_then t c
      end
  | LDot => if is_digit c then Raise OutsideModel else emit_then TDot c
  end.

Definition lex_flush (st : lexstate) : outcome (list token) :=
  match st with
  | LIdle => Ok []
  | LZero => Ok [TNum 0]
  | LDec z => Ok [TNum z]
  | LHex0 => Raise OutsideModel
  | LHex z => Ok [TNum z]
  | LName rev => Ok [TName (name_of rev)]
  | LOp c => do t <- single_op c; Ok [t]
  | LDot => Ok [TDot]
  end.

Fixpoint lex (st : lexstate) (cs : list ascii) : outcome (list token) :=
  match cs with
  | [] => lex_flush st
  | c :: rest =>
      do '(ts, st') <- lex_step st c;
      do more <- lex st' rest;
      Ok (ts ++ more)
  end.

Inductive binop : Set := Add | Sub | Mul | Div | FloorDiv | Mod | Pow.
Inductive cmpop : Set := Lt | Gt | Le | Ge | Eq | Ne.

Inductive expr : Set :=
  | ENum (z : Z)
  | EName (s : string)
  | EAttr (e : expr) (a : string)
  | ENeg (e : expr)
  | EPos (e : expr)
  | EBin (op : binop) (e1 e2 : expr)
  | ECmp (op : cmpop) (e1 e2 : expr)
  | ENot (e : expr)
  | EAnd (e1 e2 : expr)
  | EOr (e1 e2 : expr).

(** Python 2 keywords other than [and], [or], [not]: none of them is
    part of the fragment. *)
Definition other_keywords : list string :=
  ["as"; "assert"; "break"; "class"; "continue"; "def"; "del"; "elif";
   "else"; "except"; "exec"; "finally"; "for"; "from"; "global"; "if";
   "import"; "in"; "is"; "lambda"; "pass"; "print"; "raise"; "return";
   "try"; "while"; "with"; "yield"]%string.
Definition is_other_keyword (s : string) : bool := existsb (String.eqb s) other_keywords.
Definition is_kw (k : string) (t : token) : bool :=
  match t with TName s => String.eqb s k | _ => false end.
Definition is_op (k : string) (t : token) : bool :=
  match t with TOp s => String.eqb s k | _ => false end.

Definition cmpop_of (t : token) : option cmpop :=
  match t with
  | TOp s =>
      if String.eqb s "<" then Some Lt
      else if String.eqb s ">" then Some Gt
      else if String.eqb s "<=" then Some Le
      else if String.eqb s ">=" then Some Ge
      else if String.eqb s "==" then Some Eq
      else if (String.eqb s "!=" || String.eqb s "<>")%bool then Some Ne
      else None
  | _ => None
  end.
Definition addop_of (t : token) : option binop :=
  if is_op "+" t then Some Add else if is_op "-" t then Some Sub else None.
Definition mulop_of (t : token) : option binop :=
  if is_op "*" t then Some Mul
  else if is_op "/" t then Some Div
  else if is_op "//" t then Some FloorDiv
  else if is_op "%" t then Some Mod
  else None.

(** The trailers of an atom: attribute access; a call is outside the
    fragment. *)
Fixpoint parse_trailers (e : expr) (ts : list token) : outcome (expr * list token) :=
  match ts with
  | TDot :: TName a :: ts1 => parse_trailers (EAttr e a) ts1
  | TDot :: _ => Raise SyntaxError
  | TLPar :: _ => Raise OutsideModel
  | _ => Ok (e, ts)
  end.

(** The grammar of Python 2 expressions, by recursive descent:
    [or_test], [and_test], [not_test], [comparison], [arith_expr], [term],
    [factor], [power] (an atom with its trailers).  The first argument
    bounds the depth of the descent.  A chain [a < b < c] is read as
    [a < b and b < c]: operands of the fragment have no effects, so
    evaluating [b] twice is not observable. *)
Fixpoint parse_or (n : nat) (ts : list token) : outcome (expr * list token) :=
  match n with
  | O => Raise OutsideModel
  | S n => do '(e, ts1) <- parse_and n ts; parse_or_rest n e ts1
  end
with parse_or_rest (n : nat) (e : expr) (ts : list token) : outcome (expr * list token) :=
  match n with
  | O => Raise OutsideModel
  | S n =>
      match ts with
      | t :: ts1 =>
          if is_kw "or" t
          then do '(e2, ts2) <- parse_and n ts1; parse_or_rest n (EOr e e2) ts2
          else Ok (e, ts)
      | [] => Ok (e, ts)
      end
  end
with parse_and (n : nat) (ts : list token) : outcome (expr * list token) :=
  match n with
  | O => Raise OutsideModel
  | S n => do '(e, ts1) <- parse_not n ts; parse_and_rest n e ts1
  end
with parse_and_rest (n : nat) (e : expr) (ts : list token) : outcome (expr * list token) :=
  match n with
  | O => Raise OutsideModel
  | S n =>
      match ts with
      | t :: ts1 =>
          if is_kw "and" t
          then do '(e2, ts2) <- parse_not n ts1; parse_and_rest n (EAnd e e2) ts2
          else Ok (e, ts)
      | [] => Ok (e, ts)
      end
  end
with parse_not (n : nat) (ts : list token) : outcome (expr * list token) :=
  match n with
  | O => Raise OutsideModel
  | S n =>
      match ts with
      | t :: ts1 =>
          if is_kw "not" t
          then do '(e, ts2) <- parse_not n ts1; Ok (ENot e, ts2)
          else do '(e, ts2) <- parse_arith n ts; parse_cmp_rest n None e ts2
      | [] => Raise SyntaxError
      end
  end
with parse_cmp_rest (n : nat) (acc : option expr) (left : expr) (ts : list token)
    : outcome (expr * list token) :=
  match n with
  | O => Raise OutsideModel
  | S n =>
      let done := match acc with None => left | Some a => a end in
      match ts with
      | t :: ts1 =>
          match cmpop_of t with
          | Some op =>
              do '(e2, ts2) <- parse_arith n ts1;
              let c := ECmp op left e2 in
              parse_cmp_rest n (Some (match acc with None => c | Some a => EAnd a c end)) e2 ts2
          | None => Ok (done, ts)
          end
      | [] => Ok (done, ts)
      end
  end
with parse_arith (n : nat) (ts : list token) : outcome (expr * list token) :=
  match n with
  | O => Raise OutsideModel
  | S n => do '(e, ts1) <- parse_term n ts; parse_arith_rest n e ts1
  end
with parse_arith_rest (n : nat) (e : expr) (ts : list token) : outcome (expr * list token) :=
  match n with
  | O => Raise OutsideModel
  | S n =>
      match ts with
      | t :: ts1 =>
          match addop_of t with
          | Some op => do '(e2, ts2) <- parse_term n ts1; parse_arith_rest n (EBin op e e2) ts2
          | None => Ok (e, ts)
          end
      | [] => Ok (e, ts)
      end
  end
with parse_term (n : nat) (ts : list token) : outcome (expr * list token) :=
  match n with
  | O => Raise OutsideModel
  | S n => do '(e, ts1) <- parse_factor n ts; parse_term_rest n e ts1
  end
with parse_term_rest (n : nat) (e : expr) (ts : list token) : outcome (expr * list token) :=
  match n with
  | O => Raise OutsideModel
  | S n =>
      match ts with
      | t :: ts1 =>
          match mulop_of t with
          | Some op => do '(e2, ts2) <- parse_factor n ts1; parse_term_rest n (EBin op e e2) ts2
          | None => Ok (e, ts)
          end
      | [] => Ok (e, ts)
      end
  end
with parse_factor (n : nat) (ts : list token) : outcome (expr * list token) :=
  match n with
  | O => Raise OutsideModel
  | S n =>
      match ts with
      | t :: ts1 =>
          if is_op "-" t then do '(e, ts2) <- parse_factor n ts1; Ok (ENeg e, ts2)
          else if is_op "+" t then do '(e, ts2) <- parse_factor n ts1; Ok (EPos e, ts2)
          else
            do '(e, ts2) <- parse_atom n ts;
            do '(e', ts3) <- parse_trailers e ts2;
            match ts3 with
            | t3 :: ts4 =>
                if is_op "**" t3
                then do '(e2, ts5) <- parse_factor n ts4; Ok (EBin Pow e' e2, ts5)
                else Ok (e', ts3)
            | [] => Ok (e', ts3)
            end
      | [] => Raise SyntaxError
      end
  end
with parse_atom (n : nat) (ts : list token) : outcome (expr * list token) :=
  match n with
  | O => Raise OutsideModel
  | S n =>
      match ts with
      | TNum z :: ts1 => Ok (ENum z, ts1)
      | TName s :: ts1 =>
          if (is_other_keyword s || String.eqb s "and" || String.eqb s "or")%bool
          then Raise OutsideModel
          else Ok (EName s, ts1)
      | TLPar :: TRPar :: _ => Raise OutsideModel
      | TLPar :: ts1 =>
          do '(e, ts2) <- parse_or n ts1;
          match ts2 with
          | TRPar :: ts3 => Ok (e, ts3)
          | TName s :: _ => if is_other_keyword s then Raise OutsideModel else Raise SyntaxError
          | _ => Raise SyntaxError
          end
      | _ => Raise SyntaxError
      end
  end.

(** The source as one expression: tokens left over are a syntax error,
    unless they start a construct outside the fragment. *)
Definition parse (src : string) : outcome expr :=
  do ts <- lex LIdle (chars src);
  do '(e, rest) <- parse_or (20 * S (length ts)) ts;
  match rest with
  | [] => Ok e
  | TName s :: _ => if (is_other_keyword s || String.eqb s "not")%bool
                    then Raise OutsideModel else Raise SyntaxError
  | _ => Raise SyntaxError
  end.

(** Values of the fragment: integers, booleans and a sample object. *)
Inductive pyval : Set :=
  | VInt (z : Z)
  | VBool (b : bool)
  | VObj (o : LBData).

(** Truth value testing: [LBData] defines neither [__nonzero__] nor
    [__len__], so a sample is true. *)
Definition truthy (v : pyval) : bool :=
  match v with
  | VInt z => negb (z =? 0)
  | VBool b => b
  | VObj _ => true
  end.

(** An integer operand; [True] and [False] count as 1 and 0. *)
Definition as_int (v : pyval) : outcome Z :=
  match v with
  | VInt z => Ok z
  | VBool b => Ok (if b then 1 else 0)
  | VObj _ => Raise OutsideModel
  end.

(** Integer arithmetic of Python 2: [/] and [//] floor, [%] takes the sign
    of the divisor, as [Z.div] and [Z.modulo] do. *)
Definition eval_binop (op : binop) (a b : Z) : outcome pyval :=
  match op with
  | Add => Ok (VInt (a + b))
  | Sub => Ok (VInt (a - b))
  | Mul => Ok (VInt (a * b))
  | Div | FloorDiv => if b =? 0 then Raise ZeroDivisionError else Ok (VInt (a / b))
  | Mod => if b =? 0 then Raise ZeroDivisionError else Ok (VInt (a mod b))
  | Pow => if b <? 0 then Raise OutsideModel else Ok (VInt (a ^ b))
  end.

Definition eval_cmpop (op : cmpop) (a b : Z) : bool :=
  match op with
  | Lt => a <? b
  | Gt => b <? a
  | Le => a <=? b
  | Ge => b <=? a
  | Eq => a =? b
  | Ne => negb (a =? b)
  end.

Section Eval.
(** The names in scope; [None] for a name the model says nothing
    about. *)
Variable env : string -> option pyval.

Fixpoint eval_expr (e : expr) : outcome pyval :=
  match e with
  | ENum z => Ok (VInt z)
  | EName s => match env s with Some v => Ok v | None => Raise OutsideModel end
  | EAttr e1 a =>
      do v <- eval_expr e1;
      match v with
      | VObj o => if String.eqb a "value" then Ok (VInt (value o)) else Raise OutsideModel
      | _ => Raise OutsideModel
      end
  | ENeg e1 => do v <- eval_expr e1; do z <- as_int v; Ok (VInt (- z))
  | EPos e1 => do v <- eval_expr e1; do z <- as_int v; Ok (VInt z)
  | EBin op e1 e2 =>
      do v1 <- eval_expr e1;
      do v2 <- eval_expr e2;
      do a <- as_int v1;
      do b <- as_int v2;
      eval_binop op a b
  | ECmp op e1 e2 =>
      do v1 <- eval_expr e1;
      do v2 <- eval_expr e2;
      do a <- as_int v1;
      do b <- as_int v2;
      Ok (VBool (eval_cmpop op a b))
  | ENot e1 => do v <- eval_expr e1; Ok (VBool (negb (truthy v)))
  | EAnd e1 e2 => do v1 <- eval_expr e1; if truthy v1 then eval_expr e2 else Ok v1
  | EOr e1 e2 => do v1 <- eval_expr e1; if truthy v1 then Ok v1 else eval_expr e2
  end.

(** [eval(src)] in the scope [env]. *)
Definition py_eval (src : string) : outcome pyval :=
  do e <- parse src; eval_expr e.
End Eval.

(** The scope at the [eval] call of [filterByConditionalStatement]: the
    loop variable [d] is bound to the sample. *)
Definition env_d (o : LBData) (name : string) : option pyval :=
  if String.eqb name "d" then Some (VObj o) else None.

(** The scope in which the statement is read as the caller wrote it: [x]
    stands for the sample's value. *)
Definition env_x (v : Z) (name : string) : option pyval :=
  if String.eqb name "x" then Some (VInt v) else None.

(** ** The builtin list operations the container protocol relies on *)

(** An index as Python reads it: negative indices count from the end. *)
Definition norm_index (n : nat) (k : Z) : option nat :=
  if (0 <=? k) && (k <? Z.of_nat n) then Some (Z.to_nat k)
  else if (- Z.of_nat n <=? k) && (k <? 0) then Some (Z.to_nat (Z.of_nat n + k))
  else None.

Definition put_list (r : nat) (l : list nat) : M unit :=
  fun w => (Ok tt, set_lists (insert r l) w).

(** [lst.append(x)]. *)
Definition py_list_append (r : nat) (x : nat) : M unit :=
  let* l := get_list r in put_list r (l ++ [x]).

(** [lst[k]]. *)
Definition py_list_getitem (r : nat) (k : Z) : M nat :=
  let* l := get_list r in
  match norm_index (length l) k with
  | Some i => match l !! i with Some x => ret x | None => raise IndexError end
  | None => raise IndexError
  end.

(** [lst[k] = x]. *)
Definition py_list_setitem (r : nat) (k : Z) (x : nat) : M unit :=
  let* l := get_list r in
  match norm_index (length l) k with
  | Some i => put_list r (<[i := x]> l)
  | None => raise IndexError
  end.

(** [del lst[k]]. *)
Definition py_list_delitem (r : nat) (k : Z) : M unit :=
  let* l := get_list r in
  match norm_index (length l) k with
  | Some i => put_list r (delete i l)
  | None => raise IndexError
  end.

(** ** [LBHeader] *)

(** [LBHeader()] with its defaults. *)
Definition default_header : LBHeader :=
  mkHeader "unknown" "unknown" "unknown" "unknown" (PeriodStr "unknown").

(** [header.duplicate()]: [copy.deepcopy], a new object with the same
    content. *)
Definition LBHeader_duplicate (h : nat) : M nat :=
  let* x := get_header h in new_header x.

(** [header.analysisPeriod = p]. *)
Definition LBHeader_set_analysisPeriod (h : nat) (p : header_period) : M unit :=
  let* x := get_header h in
  fun w => (Ok tt, set_headers
    (insert h (mkHeader (city x) (dataType x) (unit_ x) (frequency x) p)) w).

(** An entry of the list [values(header=True)] returns. *)
Inductive item : Type :=
  | IStr (s : string)
  | IPeriod (p : header_period)
  | IData (d : nat).

(** [header.toList()]. *)
Definition LBHeader_toList (h : nat) : M (list item) :=
  let* x := get_header h in
  ret [IStr "location|dataType|units|frequency|dataPeriod";
       IStr (city x); IStr (dataType x); IStr (unit_ x); IStr (frequency x);
       IPeriod (analysisPeriod x)].

(** ** [LBData] *)

(** The names an [LBData] instance answers to: its slots, what the class
    body defines, and what [object] provides.  With [__slots__] there is no
    instance dictionary, so nothing can be added to an instance. *)
Definition LBData_slots : list string :=
  ["_LBData__value"; "datetime"]%string.
Definition LBData_class_attrs : list string :=
  ["__slots__"; "__init__"; "fromLBData"; "value"; "__int__"; "__float__";
   "__str__"; "__eq__"; "__ne__"; "__lt__"; "__gt__"; "__le__"; "__ge__";
   "__add__"; "__sub__"; "__mul__"; "__floordiv__"; "__div__"; "__mod__";
   "__pow__"; "__radd__"; "__rsub__"; "__rmul__"; "__rfloordiv__";
   "__rdiv__"; "__rmod__"; "__rpow__"; "__repr__"]%string.
Definition object_attrs : list string :=
  ["__class__"; "__delattr__"; "__doc__"; "__format__"; "__getattribute__";
   "__hash__"; "__module__"; "__new__"; "__reduce__"; "__reduce_ex__";
   "__setattr__"; "__sizeof__"; "__subclasshook__"]%string.
Definition LBData_hasattr (name : string) : bool :=
  existsb (String.eqb name) (LBData_slots ++ LBData_class_attrs ++ object_attrs).

(** [data.<name>(arg)] on a sample: a name the instance does not have
    raises [AttributeError]; the methods that exist are not called by the
    code under study. *)
Definition LBData_call (d : nat) (name : string) (arg : Z) : M unit :=
  get_sample d;;
  if LBData_hasattr name then raise OutsideModel else raise AttributeError.

(** The [value] property: getter and setter. *)
Definition LBData_get_value (d : nat) : M Z :=
  let* o := get_sample d in ret (value o).
Definition LBData_set_value (d : nat) (newValue : Z) : M unit :=
  let* o := get_sample d in
  fun w => (Ok tt, set_samples (insert d (mkData newValue (datetime o))) w).

(** [LBData.fromLBData(data)]: the assertion holds of every sample
    reference, and the sample itself is returned. *)
Definition fromLBData (data : nat) : M nat :=
  get_sample data;; ret data.

(** ** [DataList] *)

(** [checkInputData(data)]. *)
Definition checkInputData (data : option (list nat)) : M (list nat) :=
  match data with
  | None | Some [] => ret []
  | Some l => mapM fromLBData l
  end.

(** [DataList(data, header)]. *)
Definition DataList_init (data : option (list nat)) (header : option nat) : M nat :=
  let* l := checkInputData data in
  let* r := new_list l in
  let* h := match header with
            | None => new_header default_header
            | Some h => ret h
            end in
  new_series (mkDataList r h).

(** [self.__data], the list object and its content. *)
Definition self_data (self : nat) : M (list nat) :=
  let* s := get_series self in get_list (dl_data s).

(** What [values] returns: the backing list object itself, or a list
    built for the call. *)
Inductive values_result : Type :=
  | ListRef (r : nat)
  | FreshList (items : list item).

Definition values (self : nat) (header : bool) : M values_result :=
  let* s := get_series self in
  if negb header then ret (ListRef (dl_data s))
  else
    let* row := LBHeader_toList (dl_header s) in
    let* l := get_list (dl_data s) in
    ret (FreshList (row ++ map IData l)).

(** Container protocol. *)
Definition DataList_len (self : nat) : M nat :=
  let* l := self_data self in ret (length l).
Definition DataList_getitem (self : nat) (key : Z) : M nat :=
  let* s := get_series self in py_list_getitem (dl_data s) key.
Definition DataList_setitem (self : nat) (key : Z) (v : nat) : M unit :=
  let* s := get_series self in py_list_setitem (dl_data s) key v.
Definition DataList_delitem (self : nat) (key : Z) : M unit :=
  let* s := get_series self in py_list_delitem (dl_data s) key.
Definition DataList_iter (self : nat) : M (list nat) := self_data self.

(** [sum(values) / len(data)] on integers: Python 2 division floors, and
    dividing by zero raises. *)
Definition py_sum (l : list Z) : Z := foldl Z.add 0 l.
Definition py_div (a b : Z) : M Z :=
  if b =? 0 then raise ZeroDivisionError else ret (a / b).

(** [DataList.average(data)]. *)
Definition average (data : list nat) : M Z :=
  let* vs := mapM LBData_get_value data in
  py_div (py_sum vs) (Z.of_nat (length data)).

(** *** Grouping *)

(** The loop shared by the three grouping methods: a sample whose key is
    not in the range is skipped; otherwise its bucket is created when
    missing and the sample is appended to it. *)
Fixpoint group_loop (key : LBDateTime -> Z) (range : list Z) (data : list nat)
    (acc : gmap Z (list nat)) : M (gmap Z (list nat)) :=
  match data with
  | [] => ret acc
  | d :: rest =>
      let* o := get_sample d in
      let k := key (datetime o) in
      if bool_decide (k ∈ range)
      then
        let acc1 := match acc !! k with
                    | None => <[k := []]> acc
                    | Some _ => acc
                    end in
        group_loop key range rest (alter (fun b => b ++ [d]) k acc1)
      else group_loop key range rest acc
  end.

(** The data a grouping method works on: [userDataList] when it is given
    and not empty, the series' own list otherwise. *)
Definition group_input (self : nat) (userDataList : option (list nat)) : M (list nat) :=
  match userDataList with
  | None | Some [] => self_data self
  | Some l => mapM fromLBData l
  end.

(** [range(1, 13)] and [range(1, 25)], the default ranges. *)
Definition default_monthRange : list Z := seqZ 1 12.
Definition default_hourRange : list Z := seqZ 1 24.

(** [groupDataByMonth(monthRange, userDataList)]; [None] for an argument
    left out. *)
Definition groupDataByMonth (self : nat) (monthRange : option (list Z))
    (userDataList : option (list nat)) : M (gmap Z (list nat)) :=
  let* data := group_input self userDataList in
  let* hourlyDataByMonth :=
    group_loop month (default default_monthRange monthRange) data ∅ in
  print (MsgFoundMonths (dom hourlyDataByMonth));;
  ret hourlyDataByMonth.

(** [groupDataByHour(hourRange, userDataList)]. *)
Definition groupDataByHour (self : nat) (hourRange : option (list Z))
    (userDataList : option (list nat)) : M (gmap Z (list nat)) :=
  let* data := group_input self userDataList in
  let* hourlyDataByHour :=
    group_loop hour (default default_hourRange hourRange) data ∅ in
  print (MsgFoundHours (dom hourlyDataByHour));;
  ret hourlyDataByHour.

(** *** Update *)

(** [newValues[hoursOfYear[count]] = value] for each [count, value]. *)
Fixpoint map_hours (hoursOfYear : list Z) (count : nat) (vals : list Z)
    (newValues : gmap Z Z) : M (gmap Z Z) :=
  match vals with
  | [] => ret newValues
  | v :: rest =>
      match hoursOfYear !! count with
      | Some hoy => map_hours hoursOfYear (S count) rest (<[hoy := v]> newValues)
      | None => raise IndexError
      end
  end.

(** The update loop: a sample whose hour of year is no key of [newValues]
    is passed over (the [KeyError] is caught); for the others the code
    calls [data.updateValue(value)] and counts. *)
Fixpoint update_loop (newValues : gmap Z Z) (data : list nat) (updatedCount : Z) : M Z :=
  match data with
  | [] => ret updatedCount
  | d :: rest =>
      let* o := get_sample d in
      match newValues !! HOY (datetime o) with
      | None => update_loop newValues rest updatedCount
      | Some v =>
          LBData_call d "updateValue" v;;
          update_loop newValues rest (updatedCount + 1)
      end
  end.

(** [updateDataForHoursOfYear(values, hoursOfYear)].  On a length
    mismatch the argument of [ValueError] is itself ill-formed ([%] binds
    tighter than [+], so one [%d] meets two values) and evaluating it
    raises [TypeError]. *)
Definition updateDataForHoursOfYear (self : nat) (vals : list Z) (hoursOfYear : list Z)
    : M nat :=
  if negb (Nat.eqb (length vals) (length hoursOfYear)) then raise TypeError
  else
    let* newValues := map_hours hoursOfYear 0 vals ∅ in
    let* data := self_data self in
    let* updatedCount := update_loop newValues data 0 in
    let* s := get_series self in
    let* h := get_header (dl_header s) in
    print (MsgUpdated (dataType h) (Nat.ltb 1 (length vals)) updatedCount);;
    ret self.

(** [updateDataForAnHour(value, hourOfYear)]. *)
Definition updateDataForAnHour (self : nat) (v : Z) (hourOfYear : Z) : M nat :=
  updateDataForHoursOfYear self [v] [hourOfYear].

(** *** Filtering *)

(** The common tail of the filters: duplicate the header, set its period,
    build the new [DataList]. *)
Definition filtered_DataList (self : nat) (filteredData : list nat) (p : header_period)
    : M nat :=
  let* s := get_series self in
  let* filteredHeader := LBHeader_duplicate (dl_header s) in
  LBHeader_set_analysisPeriod filteredHeader p;;
  DataList_init (Some filteredData) (Some filteredHeader).

(** [filterByAnalysisPeriod(analysisPeriod)]; [None] is Python's [None],
    and a period object is true. *)
Definition filterByAnalysisPeriod (self : nat) (ap : option AnalysisPeriod) : M nat :=
  match ap with
  | None => print MsgNeedValidPeriod;; ret self
  | Some p =>
      if isAnnual p then print MsgNeedValidPeriod;; ret self
      else
        let* data := self_data self in
        let* filteredData :=
          list_comp (fun d => let* o := get_sample d in
                              ret (isTimeIncluded p (datetime o))) data in
        filtered_DataList self filteredData (PeriodObj p)
  end.

(** [filterByHOYs(HOYs)]. *)
Definition filterByHOYs (self : nat) (HOYs : list Z) : M nat :=
  let* data := self_data self in
  let* filteredData :=
    list_comp (fun d => let* o := get_sample d in
                        ret (bool_decide (HOY (datetime o) ∈ HOYs))) data in
  filtered_DataList self filteredData (PeriodStr "unknown").

Section Filter.
(** The builtin [eval] at the call site: given the source text and the
    sample bound to [d], it may do anything to the store. *)
Variable eval : string -> nat -> M pyval.

(** [filterByConditionalStatement(statement)]. *)
Definition filterByConditionalStatement (self : nat) (statement : string) : M nat :=
  checkInputStatement statement;;
  let statement' := py_replace "x" "d.value" statement in
  let* data := self_data self in
  let* filteredData :=
    list_comp (fun d => let* v := eval statement' d in ret (truthy v)) data in
  filtered_DataList self filteredData (PeriodStr "N/A").
End Filter.

(** [eval] on the modelled fragment, with [d] bound to the sample. *)
Definition eval_fragment (src : string) (d : nat) : M pyval :=
  let* o := get_sample d in
  fun w => (py_eval (env_d o) src, w).

(** Attribute lookup on a [DataList] instance (an old-style class): the
    instance attributes, then what the class defines. *)
Inductive attr_value : Set :=
  | AListRef (r : nat)
  | AHeaderRef (h : nat)
  | ABoundMethod (self : nat) (name : string).

Definition DataList_methods : list string :=
  ["__init__"; "values"; "checkInputData"; "append"; "extend"; "duplicate";
   "average"; "groupDataByMonth"; "groupDataByDay"; "groupDataByHour";
   "updateDataForAnAnalysisPeriod"; "updateDataForHoursOfYear";
   "updateDataForAnHour"; "filterByAnalysisPeriod"; "filterByHOYs";
   "filterByConditionalStatement"; "filterByPattern"; "averageMonthly";
   "averageMonthlyForEachHour"; "__len__"; "__getitem__"; "__setitem__";
   "__delitem__"; "__iter__"; "__reversed__"; "__repr__"]%string.

Definition DataList_getattr (self : nat) (name : string) : M attr_value :=
  let* s := get_series self in
  if String.eqb name "_DataList__data" then ret (AListRef (dl_data s))
  else if String.eqb name "header" then ret (AHeaderRef (dl_header s))
  else if existsb (String.eqb name) DataList_methods then ret (ABoundMethod self name)
  else if String.eqb name "timeStamps" then raise OutsideModel
  else raise AttributeError.

(** The builtin [len]: a list has a length, a bound method has none. *)
Definition py_len (v : attr_value) : M nat :=
  match v with
  | AListRef r => let* l := get_list r in ret (length l)
  | AHeaderRef _ => raise AttributeError
  | ABoundMethod _ _ => raise TypeError
  end.

(** [[d for count, d in enumerate(data) if patternList[count]]]. *)
Fixpoint pattern_comp (patternList : list bool) (count : nat) (data : list nat)
    : M (list nat) :=
  match data with
  | [] => ret []
  | d :: rest =>
      match (patternList !! count : option bool) with
      | None => raise IndexError
      | Some b =>
          let* ds := pattern_comp patternList (S count) rest in
          ret (if b then d :: ds else ds)
      end
  end.

(** [filterByPattern(patternList)].  The length test reads [self.values],
    the method, where the list [self.__data] is meant.  The mismatch
    branch prints the two lengths and then formats its message from a
    period object, which [%d] does not accept. *)
Definition filterByPattern (self : nat) (patternList : list bool) : M nat :=
  let* vals := DataList_getattr self "values" in
  let* n := py_len vals in
  if negb (Nat.eqb n (length patternList))
  then
    let* vals' := DataList_getattr self "values" in
    let* n' := py_len vals' in
    print (MsgLengths n' (length patternList));;
    raise TypeError
  else
    let* data := self_data self in
    let* filteredData := pattern_comp patternList 0 data in
    filtered_DataList self filteredData (PeriodStr "N/A").

(** The four filters, as one request. *)
Inductive filter_op : Type :=
  | ByPeriod (ap : option AnalysisPeriod)
  | ByHOYs (HOYs : list Z)
  | ByStatement (statement : string)
  | ByPattern (patternList : list bool).

Definition run_filter (eval : string -> nat -> M pyval) (op : filter_op) (self : nat) : M nat :=
  match op with
  | ByPeriod ap => filterByAnalysisPeriod self ap
  | ByHOYs HOYs => filterByHOYs self HOYs
  | ByStatement statement => filterByConditionalStatement eval self statement
  | ByPattern patternList => filterByPattern self patternList
  end.

(** ** Vocabulary of the statements *)

(** Every reference of [l] is a live sample. *)
Definition valid_refs (w : world) (l : list nat) : Prop :=
  ∀ d, d ∈ l → is_Some (w_samples w !! d).

(** A test on the sample a reference points to. *)
Definition sample_test (P : LBData -> bool) (w : world) (d : nat) : bool :=
  match w_samples w !! d with
  | Some o => P o
  | None => false
  end.

(** The calendar key of the sample a reference points to. *)
Definition key_of (key : LBDateTime -> Z) (w : world) (d : nat) : option Z :=
  (fun o => key (datetime o)) <$> (w_samples w !! d).

Definition with_period (h : LBHeader) (p : header_period) : LBHeader :=
  mkHeader (city h) (dataType h) (unit_ h) (frequency h) p.

(** [w'] is [w] plus one new series [f] over the samples [kept]: a new
    list object, a new header that copies the header of [self] but for the
    period [p], and nothing else changed. *)
Definition is_filtered_view (w : world) (self : nat) (kept : list nat)
    (p : header_period) (f : nat) (w' : world) : Prop :=
  ∃ s hd r h,
    w_series w !! self = Some s ∧ w_headers w !! dl_header s = Some hd ∧
    (f ∉ dom (w_series w)) ∧ (r ∉ dom (w_lists w)) ∧ (h ∉ dom (w_headers w)) ∧
    w_series w' = <[f := mkDataList r h]> (w_series w) ∧
    w_lists w' = <[r := kept]> (w_lists w) ∧
    w_headers w' = <[h := with_period hd p]> (w_headers w) ∧
    w_samples w' = w_samples w ∧
    w_stdout w' = w_stdout w.

(** The samples a grouping method works on, for a series whose own list
    holds [l]. *)
Definition effective_input (l : list nat) (userDataList : option (list nat)) : list nat :=
  match userDataList with
  | None | Some [] => l
  | Some u => u
  end.

(** The buckets of a grouping result, taken in the order [ks] of keys. *)
Definition flatten_buckets (g : gmap Z (list nat)) (ks : list Z) : list nat :=
  concat (map (fun k => default [] (g !! k)) ks).

(** Membership of a sample's key in a list of keys. *)
Definition in_keys (keyf : nat -> option Z) (ks : list Z) (d : nat) : bool :=
  match keyf d with
  | Some k => bool_decide (k ∈ ks)
  | None => false
  end.

(** The values of the samples a list refers to. *)
Definition values_of (w : world) (data : list nat) : list Z :=
  map (fun d => default 0 (value <$> w_samples w !! d)) data.

(** What the result [f] of a filter, in the store [w'] it leaves, has to
    do with its source [self], whose list held [l] and whose header was
    [hd] before: the filtering changed no sample and left the list and the
    header of [self] alone; [f] is [self] itself or a new object with a
    list and a header of its own; the list of [f] is a sublist of [l], made
    of the same sample objects, so that setting the value of one of them
    shows through [self] at every index that holds it. *)
Definition shares_samples (w : world) (self : nat) (s : DataList) (l : list nat)
    (hd : LBHeader) (f : nat) (w' : world) : Prop :=
  w_samples w' = w_samples w ∧
  w_series w' !! self = Some s ∧
  w_lists w' !! dl_data s = Some l ∧
  w_headers w' !! dl_header s = Some hd ∧
  ∃ s' kept,
    w_series w' !! f = Some s' ∧
    w_lists w' !! dl_data s' = Some kept ∧
    sublist kept l ∧
    (f = self ∨ ((f ∉ dom (w_series w)) ∧ (dl_data s' ∉ dom (w_lists w)) ∧
                 (dl_header s' ∉ dom (w_headers w)))) ∧
    ∀ d v, d ∈ kept →
      ∃ w'', LBData_set_value d v w' = (Ok tt, w'') ∧
        ∀ i, l !! i = Some d →
          (let* x := DataList_getitem self (Z.of_nat i) in LBData_get_value x) w''
          = (Ok v, w'').

(** ** Further methods *)

(** [timeStamps]: [[value.datetime for value in self.__data]]. *)
Definition timeStamps (self : nat) : M (list LBDateTime) :=
  let* data := self_data self in
  mapM (fun d => let* o := get_sample d in ret (datetime o)) data.

(** [extend(dataList)]: [self.__data.extend(self.checkInputData(dataList))].
    The list object is looked up first, the argument is checked, and the
    list is then lengthened in place. *)
Definition extend (self : nat) (dataList : option (list nat)) : M unit :=
  let* s := get_series self in
  let* more := checkInputData dataList in
  let* l := get_list (dl_data s) in
  put_list (dl_data s) (l ++ more).

(** [append(data)]. *)
Definition append (self : nat) (data : nat) : M unit :=
  extend self (Some [data]).

(** [__setitem__], [__delitem__] and [__getitem__] are [DataList_setitem],
    [DataList_delitem] and [DataList_getitem] above.  [__reversed__]:
    [list(reversed(self.__data))], a list built for the call. *)
Definition DataList_reversed (self : nat) : M (list nat) :=
  let* l := self_data self in ret (rev l).

(** [copy.deepcopy] of the samples of a list: every sample met for the
    first time is copied into a new object, and [memo] makes a sample met
    again yield the copy made before. *)
Fixpoint deepcopy_refs (l : list nat) (memo : gmap nat nat)
    : M (list nat * gmap nat nat) :=
  match l with
  | [] => ret ([], memo)
  | d :: rest =>
      match memo !! d with
      | Some d' =>
          let* r := deepcopy_refs rest memo in
          ret (d' :: r.1, r.2)
      | None =>
          let* o := get_sample d in
          let* d' := new_sample o in
          let* r := deepcopy_refs rest (<[d := d']> memo) in
          ret (d' :: r.1, r.2)
      end
  end.

(** [duplicate()]: [copy.deepcopy(self)], a new series over a new list of
    copied samples, with a copied header. *)
Definition duplicate (self : nat) : M nat :=
  let* s := get_series self in
  let* l := get_list (dl_data s) in
  let* copied := deepcopy_refs l ∅ in
  let* r := new_list copied.1 in
  let* h := LBHeader_duplicate (dl_header s) in
  new_series (mkDataList r h).

(** [newValues[timeStamps[count].HOY] = value] for each [count, value]. *)
Fixpoint map_dates (timeStamps : list LBDateTime) (count : nat) (vals : list Z)
    (newValues : gmap Z Z) : M (gmap Z Z) :=
  match vals with
  | [] => ret newValues
  | v :: rest =>
      match timeStamps !! count with
      | Some t => map_dates timeStamps (S count) rest (<[HOY t := v]> newValues)
      | None => raise IndexError
      end
  end.

Section DefaultPeriod.
(** [AnalysisPeriod()], the whole-year period the collaborator builds
    when called without arguments. *)
Variable default_period : AnalysisPeriod.

(** [updateDataForAnAnalysisPeriod(values, analysisPeriod)].  As in
    [updateDataForHoursOfYear], evaluating the argument of [ValueError] on
    a length mismatch raises [TypeError]; the line printed at the end is
    the one [updateDataForHoursOfYear] prints for several values. *)
Definition updateDataForAnAnalysisPeriod (self : nat) (vals : list Z)
    (ap : option AnalysisPeriod) : M nat :=
  let analysisPeriod := default default_period ap in
  if negb (Z.of_nat (length vals) =? totalNumOfHours analysisPeriod) then raise TypeError
  else
    let* newValues := map_dates (dates analysisPeriod) 0 vals ∅ in
    let* data := self_data self in
    let* updatedCount := update_loop newValues data 0 in
    let* s := get_series self in
    let* h := get_header (dl_header s) in
    print (MsgUpdated (dataType h) true updatedCount);;
    ret self.
End DefaultPeriod.

(** [averageValues[month] = self.average(values)] for each item of the
    dictionary, in the order it yields them. *)
Fixpoint average_each (items : list (Z * list nat)) (averageValues : gmap Z Z)
    : M (gmap Z Z) :=
  match items with
  | [] => ret averageValues
  | (k, vals) :: rest =>
      let* a := average vals in
      average_each rest (<[k := a]> averageValues)
  end.

(** [averageMonthly(userDataList)]. *)
Definition averageMonthly (self : nat) (userDataList : option (list nat))
    : M (gmap Z Z) :=
  let* monthlyValues := groupDataByMonth self None userDataList in
  average_each (map_to_list monthlyValues) ∅.

(** The loop of [averageMonthlyForEachHour] over the months. *)
Fixpoint average_each_hour (self : nat) (items : list (Z * list nat))
    (acc : gmap Z (gmap Z Z)) : M (gmap Z (gmap Z Z)) :=
  match items with
  | [] => ret acc
  | (m, monthlyValues) :: rest =>
      let acc1 := match acc !! m with
                  | None => <[m := ∅]> acc
                  | Some _ => acc
                  end in
      let* groupedHourlyData := groupDataByHour self None (Some monthlyValues) in
      let* inner := average_each (map_to_list groupedHourlyData)
                      (default ∅ (acc1 !! m)) in
      average_each_hour self rest (<[m := inner]> acc1)
  end.

(** [averageMonthlyForEachHour(userDataList)]. *)
Definition averageMonthlyForEachHour (self : nat) (userDataList : option (list nat))
    : M (gmap Z (gmap Z Z)) :=
  let* monthlyHourlyValues := groupDataByMonth self None userDataList in
  average_each_hour self (map_to_list monthlyHourlyValues) ∅.

(** The arithmetic methods of [LBData] on an integer operand: each
    applies the operator to [self.value] and [other]; the reflected ones
    put [other] on the left, but for [__radd__] and [__rmul__], which call
    [__add__] and [__mul__]. *)
Definition lift_outcome {A} (r : outcome A) : M A := fun w => (r, w).

Definition LBData_binop (op : binop) (d : nat) (other : Z) : M pyval :=
  let* o := get_sample d in lift_outcome (eval_binop op (value o) other).
Definition LBData_rbinop (op : binop) (d : nat) (other : Z) : M pyval :=
  let* o := get_sample d in lift_outcome (eval_binop op other (value o)).

Definition LBData_add := LBData_binop Add.
Definition LBData_sub := LBData_binop Sub.
Definition LBData_mul := LBData_binop Mul.
Definition LBData_floordiv := LBData_binop FloorDiv.
Definition LBData_div := LBData_binop Div.
Definition LBData_mod := LBData_binop Mod.
Definition LBData_radd := LBData_add.
Definition LBData_rsub := LBData_rbinop Sub.
Definition LBData_rmul := LBData_mul.
Definition LBData_rfloordiv := LBData_rbinop FloorDiv.
Definition LBData_rdiv := LBData_rbinop Div.
Definition LBData_rmod := LBData_rbinop Mod.

(** ** Further vocabulary *)

(** The content of a series: what its list object holds. *)
Definition series_content (w : world) (f : nat) : option (list nat) :=
  match w_series w !! f with
  | Some s => w_lists w !! dl_data s
  | None => None
  end.

(** The header of a series. *)
Definition series_header (w : world) (f : nat) : option LBHeader :=
  match w_series w !! f with
  | Some s => w_headers w !! dl_header s
  | None => None
  end.

(** Two stores with the same heaps; what was printed may differ. *)
Definition same_heaps (w w' : world) : Prop :=
  w_samples w' = w_samples w ∧ w_lists w' = w_lists w ∧
  w_headers w' = w_headers w ∧ w_series w' = w_series w.

(** The test of [filterByHOYs] on a sample reference. *)
Definition hoy_in (HOYs : list Z) (w : world) (d : nat) : bool :=
  sample_test (fun o => bool_decide (HOY (datetime o) ∈ HOYs)) w d.

(** What [average] returns on a non-empty list of integer samples. *)
Definition floor_mean (w : world) (data : list nat) : Z :=
  py_sum (values_of w data) / Z.of_nat (length data).

(** The letters left in a statement once it is lower-cased and the
    keywords are removed. *)
Definition letters_left (statement : string) : list ascii :=
  filter (fun s => isalpha s = true) (chars (stStatement statement)).

(** A computation that, run in any store, leaves every heap as it was. *)
Definition keeps_heaps {A} (m : M A) : Prop :=
  ∀ w, same_heaps w (m w).2.

(** The hours of year of the timestamps of a period. *)
Definition period_hours (ap : AnalysisPeriod) : list Z := map HOY (dates ap).

(** [inner] holds, for every hour of day from 1 to 24 that some sample of
    [b] has, the floored mean of the values of the samples of [b] with
    that hour, and nothing else. *)
Definition hour_means (w : world) (b : list nat) (inner : gmap Z Z) : Prop :=
  ∀ h, inner !! h =
    let hb := filter (fun d => key_of hour w d = Some h) b in
    if decide (h ∈ default_hourRange ∧ hb ≠ []) then Some (floor_mean w hb) else None.

(** A period of two hours, the hours of year 13 and 14. *)
Definition two_hours : AnalysisPeriod :=
  mkPeriod (fun t => (13 <=? HOY t) && (HOY t <=? 14)) false 2
    [mkDateTime 1 1 13 13; mkDateTime 1 1 14 14].

(** A series (object 0) whose list holds the same sample twice, and a
    second sample. *)
Definition w_shared : world :=
  mkWorld
    (list_to_map [(0%nat, mkData 10 (mkDateTime 1 1 1 1));
                  (1%nat, mkData 20 (mkDateTime 1 1 13 13))])
    {[ 0%nat := [0; 1; 0]%nat ]}
    {[ 0%nat := default_header ]}
    {[ 0%nat := mkDataList 0 0 ]}
    [].

(** ** Example stores *)

Definition sample_at (v m h hoy : Z) : LBData := mkData v (mkDateTime m 1 h hoy).

(** One series (object 0) over four samples with the values 20, 25, 30
    and 35. *)
Definition w_four : world :=
  mkWorld
    (list_to_map [(0%nat, sample_at 20 1 1 1); (1%nat, sample_at 25 1 13 13);
                  (2%nat, sample_at 30 2 13 757); (3%nat, sample_at 35 3 5 1421)])
    {[ 0%nat := [0; 1; 2; 3]%nat ]}
    {[ 0%nat := default_header ]}
    {[ 0%nat := mkDataList 0 0 ]}
    [].

(** One series (object 0) over three samples with the hours of day 1, 13
    and 13 and the values 10, 20 and 30. *)
Definition w_three : world :=
  mkWorld
    (list_to_map [(0%nat, sample_at 10 1 1 1); (1%nat, sample_at 20 1 13 13);
                  (2%nat, sample_at 30 2 13 757)])
    {[ 0%nat := [0; 1; 2]%nat ]}
    {[ 0%nat := default_header ]}
    {[ 0%nat := mkDataList 0 0 ]}
    [].

(** One series over two samples with the values 1 and 2. *)
Definition w_two : world :=
  mkWorld
    (list_to_map [(0%nat, sample_at 1 1 1 1); (1%nat, sample_at 2 1 2 2)])
    {[ 0%nat := [0; 1]%nat ]}
    {[ 0%nat := default_header ]}
    {[ 0%nat := mkDataList 0 0 ]}
    [].

(** February: a period that is not the whole year. *)
Definition february : AnalysisPeriod :=
  mkPeriod (fun t => month t =? 2) false 672 [].

(** ** Reasoning about the monad *)

Lemma bind_ok {A B} (m : M A) (k : A -> M B) w a w' :
  m w = (Ok a, w') → bind m k w = k a w'.
Proof. intros H. unfold bind. by rewrite H. Qed.

Lemma bind_raise {A B} (m : M A) (k : A -> M B) w e w' :
  m w = (Raise e, w') → bind m k w = (Raise e, w').
Proof. intros H. unfold bind. by rewrite H. Qed.

Lemma get_sample_ok w d o : w_samples w !! d = Some o → get_sample d w = (Ok o, w).
Proof. intros H. unfold get_sample. by rewrite H. Qed.

Lemma get_list_ok w r l : w_lists w !! r = Some l → get_list r w = (Ok l, w).
Proof. intros H. unfold get_list. by rewrite H. Qed.

Lemma get_header_ok w h x : w_headers w !! h = Some x → get_header h w = (Ok x, w).
Proof. intros H. unfold get_header. by rewrite H. Qed.

Lemma get_series_ok w s x : w_series w !! s = Some x → get_series s w = (Ok x, w).
Proof. intros H. unfold get_series. by rewrite H. Qed.

Lemma self_data_ok w self s l :
  w_series w !! self = Some s → w_lists w !! dl_data s = Some l →
  self_data self w = (Ok l, w).
Proof.
  intros Hs Hl. unfold self_data.
  rewrite (bind_ok _ _ _ _ _ (get_series_ok _ _ _ Hs)).
  by apply get_list_ok.
Qed.

Lemma valid_refs_cons w d l :
  valid_refs w (d :: l) ↔ is_Some (w_samples w !! d) ∧ valid_refs w l.
Proof.
  unfold valid_refs. split.
  - intros H. split; [apply H; left | intros x Hx; apply H; by right].
  - intros [Hd Hl] x Hx. apply elem_of_cons in Hx as [-> | Hx]; auto.
Qed.

Lemma fromLBData_ok w d : is_Some (w_samples w !! d) → fromLBData d w = (Ok d, w).
Proof.
  intros [o Ho]. unfold fromLBData.
  by rewrite (bind_ok _ _ _ _ _ (get_sample_ok _ _ _ Ho)).
Qed.

Lemma mapM_fromLBData_ok w l :
  valid_refs w l → mapM fromLBData l w = (Ok l, w).
Proof.
  induction l as [| d l IH]; intros Hv; [done |].
  apply valid_refs_cons in Hv as [Hd Hl]. simpl.
  rewrite (bind_ok _ _ _ _ _ (fromLBData_ok _ _ Hd)).
  by rewrite (bind_ok _ _ _ _ _ (IH Hl)).
Qed.

Lemma checkInputData_ok w l :
  valid_refs w l → checkInputData (Some l) w = (Ok l, w).
Proof.
  intros Hv. destruct l as [| d l]; [done |].
  by apply mapM_fromLBData_ok.
Qed.

(** A comprehension whose condition reads the store without changing it
    is a filter. *)
Lemma list_comp_pure (cond : nat -> M bool) (p : nat -> bool) w l :
  (∀ d, d ∈ l → cond d w = (Ok (p d), w)) →
  list_comp cond l w = (Ok (filter (fun d => p d = true) l), w).
Proof.
  induction l as [| d l IH]; intros H; [done |].
  simpl. rewrite (bind_ok _ _ _ _ _ (H d ltac:(left))).
  rewrite (bind_ok _ _ _ _ _ (IH (fun x Hx => H x ltac:(by right)))).
  unfold ret. rewrite filter_cons. by destruct (p d).
Qed.

(** The common tail of the filters builds a filtered view. *)
Lemma filtered_DataList_spec w self s hd kept p :
  w_series w !! self = Some s → w_headers w !! dl_header s = Some hd →
  valid_refs w kept →
  ∃ f w', filtered_DataList self kept p w = (Ok f, w') ∧
          is_filtered_view w self kept p f w'.
Proof.
  intros Hs Hh Hv.
  set (h := fresh (dom (w_headers w))).
  set (r := fresh (dom (w_lists w))).
  set (f := fresh (dom (w_series w))).
  set (w2 := set_headers (insert h (with_period hd p)) w).
  assert (Hdup : LBHeader_duplicate (dl_header s) w = (Ok h, set_headers (insert h hd) w)).
  { unfold LBHeader_duplicate. by rewrite (bind_ok _ _ _ _ _ (get_header_ok _ _ _ Hh)). }
  assert (Hset : LBHeader_set_analysisPeriod h p (set_headers (insert h hd) w) = (Ok tt, w2)).
  { unfold LBHeader_set_analysisPeriod.
    erewrite bind_ok; [| apply get_header_ok; simpl; apply lookup_insert_eq].
    unfold w2, set_headers, with_period. simpl. by rewrite insert_insert_eq. }
  assert (Hinit : DataList_init (Some kept) (Some h) w2
                  = (Ok f, set_series (insert f (mkDataList r h)) (set_lists (insert r kept) w2))).
  { unfold DataList_init.
    rewrite (bind_ok _ _ _ _ _ (checkInputData_ok w2 kept Hv)).
    reflexivity. }
  exists f, (set_series (insert f (mkDataList r h)) (set_lists (insert r kept) w2)).
  split.
  - unfold filtered_DataList.
    rewrite (bind_ok _ _ _ _ _ (get_series_ok _ _ _ Hs)).
    rewrite (bind_ok _ _ _ _ _ Hdup).
    by rewrite (bind_ok _ _ _ _ _ Hset).
  - exists s, hd, r, h. repeat split; try done; apply is_fresh.
Qed.

Lemma is_filtered_view_self w self kept p f w' :
  is_filtered_view w self kept p f w' → f ≠ self.
Proof.
  intros (s & hd & r & h & Hs & _ & Hf & _) ->.
  apply Hf, elem_of_dom. eauto.
Qed.

(** ** The statement check *)

Lemma list_of_set_singleton (l : list ascii) (c x : ascii) :
  c ∈ l → list_of_set l = [x] → c = x.
Proof.
  intros Hc Heq.
  assert (c ∈ list_of_set l) as Hin.
  { unfold list_of_set. apply elem_of_elements, elem_of_list_to_set, Hc. }
  rewrite Heq in Hin. by apply list_elem_of_singleton in Hin.
Qed.

Lemma checkInputStatement_raises statement w c :
  c ∈ chars (stStatement statement) → isalpha c = true → c ≠ "x"%char →
  checkInputStatement statement w = (Raise ValueError, w).
Proof.
  intros Hc Ha Hx. unfold checkInputStatement.
  rewrite bool_decide_true; [done |].
  intros Heq. apply Hx.
  eapply list_of_set_singleton; [| exact Heq].
  apply list_elem_of_filter. by split.
Qed.

Lemma checkInputStatement_passes statement w :
  list_of_set (filter (fun s => isalpha s = true) (chars (stStatement statement)))
    = ["x"%char] →
  checkInputStatement statement w = (Ok tt, w).
Proof.
  intros Heq. unfold checkInputStatement.
  rewrite bool_decide_false; [done |]. by intros H.
Qed.



(** ** Filtering by a predicate *)




(** ** What a filtered series shares with its source *)

(** A comprehension whose condition never changes the store returns, when
    it returns, a sublist of its input and the store it started from. *)
Lemma list_comp_no_effect (cond : nat -> M bool) w l res w1 :
  (∀ d r w2, cond d w = (r, w2) → w2 = w) →
  list_comp cond l w = (Ok res, w1) →
  w1 = w ∧ sublist res l.
Proof.
  intros Hc. revert res w1.
  induction l as [| d l IH]; intros res w1 H.
  - inversion H. split; [done | constructor].
  - simpl in H. unfold bind at 1 in H.
    destruct (cond d w) as [[b | e] w2] eqn:Hd; [| done].
    apply Hc in Hd as ->.
    unfold bind at 1 in H.
    destruct (list_comp cond l w) as [[ds | e] w3] eqn:Hl; [| done].
    destruct (IH ds w3 eq_refl) as [-> Hsub].
    inversion H; subst. split; [done |].
    destruct b; by constructor.
Qed.

Lemma read_cond_no_effect (P : LBData -> bool) w d r w2 :
  (let* o := get_sample d in ret (P o)) w = (r, w2) → w2 = w.
Proof.
  unfold bind, get_sample, ret.
  destruct (w_samples w !! d); by inversion 1.
Qed.

Lemma eval_fragment_no_effect src d w r w1 :
  eval_fragment src d w = (r, w1) → w1 = w.
Proof.
  unfold eval_fragment, bind, get_sample.
  destruct (w_samples w !! d); by inversion 1.
Qed.

Lemma valid_refs_sublist w l1 l2 :
  sublist l1 l2 → valid_refs w l2 → valid_refs w l1.
Proof. intros Hsub Hv d Hd. apply Hv. by eapply elem_of_sublist. Qed.

(** [len(self.values)] fails whatever the pattern is. *)
Lemma filterByPattern_raises w self s patternList :
  w_series w !! self = Some s →
  filterByPattern self patternList w = (Raise TypeError, w).
Proof.
  intros Hs. unfold filterByPattern.
  erewrite bind_ok.
  2: { unfold DataList_getattr. rewrite (bind_ok _ _ _ _ _ (get_series_ok _ _ _ Hs)).
       reflexivity. }
  reflexivity.
Qed.

Lemma norm_index_nat n i : (i < n)%nat → norm_index n (Z.of_nat i) = Some i.
Proof.
  intros Hi. unfold norm_index.
  replace (0 <=? Z.of_nat i) with true by (symmetry; apply Z.leb_le; lia).
  replace (Z.of_nat i <? Z.of_nat n) with true by (symmetry; apply Z.ltb_lt; lia).
  simpl. by rewrite Nat2Z.id.
Qed.

Lemma DataList_getitem_nat w self s l i x :
  w_series w !! self = Some s → w_lists w !! dl_data s = Some l →
  l !! i = Some x →
  DataList_getitem self (Z.of_nat i) w = (Ok x, w).
Proof.
  intros Hs Hl Hi. unfold DataList_getitem.
  rewrite (bind_ok _ _ _ _ _ (get_series_ok _ _ _ Hs)).
  unfold py_list_getitem.
  rewrite (bind_ok _ _ _ _ _ (get_list_ok _ _ _ Hl)).
  rewrite norm_index_nat by (by eapply lookup_lt_Some).
  by rewrite Hi.
Qed.

(** Setting the value of a sample is seen wherever a series holds that
    sample. *)
Lemma set_value_seen w self s l d o v :
  w_samples w !! d = Some o →
  w_series w !! self = Some s → w_lists w !! dl_data s = Some l →
  ∃ w'', LBData_set_value d v w = (Ok tt, w'') ∧
    ∀ i, l !! i = Some d →
      (let* x := DataList_getitem self (Z.of_nat i) in LBData_get_value x) w''
      = (Ok v, w'').
Proof.
  intros Ho Hs Hl.
  exists (set_samples (insert d (mkData v (datetime o))) w). split.
  - unfold LBData_set_value. by rewrite (bind_ok _ _ _ _ _ (get_sample_ok _ _ _ Ho)).
  - intros i Hi.
    erewrite bind_ok; [| by eapply DataList_getitem_nat].
    unfold LBData_get_value.
    erewrite bind_ok; [| apply get_sample_ok; simpl; apply lookup_insert_eq].
    reflexivity.
Qed.

Lemma view_shares w self s l hd kept p f w' :
  w_series w !! self = Some s → w_lists w !! dl_data s = Some l →
  w_headers w !! dl_header s = Some hd → valid_refs w l →
  sublist kept l →
  is_filtered_view w self kept p f w' →
  shares_samples w self s l hd f w'.
Proof.
  intros Hs Hl Hh Hv Hsub (s0 & hd0 & r & h & Hs0 & Hh0 & Hf & Hr & Hhf & Es & El & Eh & Em & _).
  assert (f ≠ self) as Hfs by (intros ->; apply Hf, elem_of_dom; eauto).
  assert (r ≠ dl_data s) as Hrs by (intros ->; apply Hr, elem_of_dom; eauto).
  assert (h ≠ dl_header s) as Hhs by (intros ->; apply Hhf, elem_of_dom; eauto).
  assert (w_series w' !! self = Some s) as Hs' by (by rewrite Es, lookup_insert_ne).
  assert (w_lists w' !! dl_data s = Some l) as Hl' by (by rewrite El, lookup_insert_ne).
  split; [done |]. split; [done |]. split; [done |].
  split; [by rewrite Eh, lookup_insert_ne |].
  exists (mkDataList r h), kept.
  split; [by rewrite Es, lookup_insert_eq |].
  split; [by rewrite El; simpl; rewrite lookup_insert_eq |].
  split; [done |].
  split; [by right |].
  intros d v Hd.
  destruct (Hv d (elem_of_sublist _ _ _ Hd Hsub)) as [o Ho].
  rewrite <- Em in Ho.
  by eapply set_value_seen.
Qed.

Lemma noop_shares w self s l hd msg :
  w_series w !! self = Some s → w_lists w !! dl_data s = Some l →
  w_headers w !! dl_header s = Some hd → valid_refs w l →
  shares_samples w self s l hd self (set_stdout (fun out => out ++ [msg]) w).
Proof.
  intros Hs Hl Hh Hv.
  repeat (split; [done |]).
  exists s, l. repeat (split; [done |]).
  split; [by left |].
  intros d v Hd. destruct (Hv d Hd) as [o Ho].
  by eapply set_value_seen.
Qed.


Lemma valid_refs_w_three : valid_refs w_three [0; 1; 2]%nat.
Proof.
  intros d Hd. apply list_elem_of_In in Hd. simpl in Hd.
  destruct Hd as [<- | [<- | [<- | []]]]; vm_compute; eauto.
Qed.

Lemma valid_refs_w_four : valid_refs w_four [0; 1; 2; 3]%nat.
Proof.
  intros d Hd. apply list_elem_of_In in Hd. simpl in Hd.
  destruct Hd as [<- | [<- | [<- | [<- | []]]]]; vm_compute; eauto.
Qed.



(** ** Filtering by period *)

(** C6. With no period, or with a period flagged as the whole year,
    [filterByAnalysisPeriod] returns the receiver itself and does nothing
    but print: every heap of the store is as before.  With any other
    period it returns a new series that keeps exactly the samples whose
    timestamp the period includes, in order, under a duplicated header
    whose period is the filter period. *)
Theorem filterByAnalysisPeriod_spec
    (w : world) (self : nat) (s : DataList) (l : list nat) (hd : LBHeader)
    (ap : option AnalysisPeriod) :
  w_series w !! self = Some s →
  w_lists w !! dl_data s = Some l →
  w_headers w !! dl_header s = Some hd →
  valid_refs w l →
  match ap with
  | Some p =>
      if isAnnual p
      then filterByAnalysisPeriod self ap w
           = (Ok self, set_stdout (fun out => out ++ [MsgNeedValidPeriod]) w)
      else ∃ f w',
           filterByAnalysisPeriod self ap w = (Ok f, w') ∧
           f ≠ self ∧
           is_filtered_view w self
             (filter (fun d => sample_test (fun o => isTimeIncluded p (datetime o)) w d = true) l)
             (PeriodObj p) f w'
  | None => filterByAnalysisPeriod self ap w
            = (Ok self, set_stdout (fun out => out ++ [MsgNeedValidPeriod]) w)
  end.
Proof.
  intros Hs Hl Hh Hv. destruct ap as [p |]; [| done].
  simpl. destruct (isAnnual p) eqn:Ha; [done |].
  set (kept := filter (fun d => sample_test (fun o => isTimeIncluded p (datetime o)) w d = true) l).
  assert (Hkept : valid_refs w kept).
  { eapply valid_refs_sublist; [apply sublist_filter | done]. }
  destruct (filtered_DataList_spec w self s hd kept (PeriodObj p) Hs Hh Hkept)
    as (f & w' & Hrun & Hview).
  exists f, w'. split; [| split; [by eapply is_filtered_view_self | exact Hview]].
  rewrite (bind_ok _ _ _ _ _ (self_data_ok _ _ _ _ Hs Hl)).
  erewrite bind_ok; [exact Hrun |].
  apply (list_comp_pure _ (sample_test (fun o => isTimeIncluded p (datetime o)) w)).
  intros d Hd. destruct (Hv d Hd) as [o Ho].
  rewrite (bind_ok _ _ _ _ _ (get_sample_ok _ _ _ Ho)).
  unfold sample_test. by rewrite Ho.
Qed.

(** Filtering the four-sample series by February keeps the one sample of
    February (object 2) in a new series. *)
Lemma filterByAnalysisPeriod_february :
  ∃ f w',
    filterByAnalysisPeriod 0 (Some february) w_four = (Ok f, w') ∧
    f ≠ 0%nat ∧
    is_filtered_view w_four 0 [2%nat] (PeriodObj february) f w'.
Proof.
  exact (filterByAnalysisPeriod_spec w_four 0 (mkDataList 0 0) [0; 1; 2; 3]%nat
           default_header (Some february) eq_refl eq_refl eq_refl valid_refs_w_four).
Defined.

(** ** Grouping *)

Lemma filter_key_cons key w d l k :
  filter (fun x => key_of key w x = Some k) (d :: l)
  = if decide (key_of key w d = Some k)
    then d :: filter (fun x => key_of key w x = Some k) l
    else filter (fun x => key_of key w x = Some k) l.
Proof. by rewrite filter_cons. Qed.

(** The grouping loop, started from the buckets [acc]: a key outside the
    range keeps the bucket it had; a key of the range gets, after what its
    bucket held, the samples of that key in the order of the input, and no
    bucket when there is nothing to hold. *)
Lemma group_loop_spec key range w data :
  valid_refs w data →
  ∀ acc, ∃ g,
    group_loop key range data acc w = (Ok g, w) ∧
    ∀ k, g !! k =
      let new := filter (fun d => key_of key w d = Some k) data in
      if decide (k ∈ range)
      then match acc !! k with
           | Some b => Some (b ++ new)
           | None => match new with [] => None | _ => Some new end
           end
      else acc !! k.
Proof.
  induction data as [| d data IH]; intros Hv acc.
  - exists acc. split; [done |]. intros k. simpl.
    case_decide; [| done]. destruct (acc !! k); [by rewrite app_nil_r | done].
  - apply valid_refs_cons in Hv as [[o Ho] Hv].
    simpl. rewrite (bind_ok _ _ _ _ _ (get_sample_ok _ _ _ Ho)).
    assert (Hkd : key_of key w d = Some (key (datetime o))).
    { unfold key_of. by rewrite Ho. }
    set (kd := key (datetime o)) in *.
    case_bool_decide as Hin.
    + set (acc1 := match acc !! kd with None => <[kd := []]> acc | Some _ => acc end).
      destruct (IH Hv (alter (fun b => b ++ [d]) kd acc1)) as (g & Hg & Hspec).
      exists g. split; [done |]. intros k. rewrite Hspec. clear Hspec Hg.
      cbv zeta. rewrite filter_key_cons, Hkd.
      destruct (decide (k = kd)) as [-> | Hne].
      * rewrite (decide_True (P := Some kd = Some kd)) by done.
        rewrite !(decide_True (P := kd ∈ range)) by done.
        rewrite lookup_alter_eq. unfold acc1.
        destruct (acc !! kd) as [b |] eqn:Hb.
        -- rewrite Hb. simpl. by rewrite <- app_assoc.
        -- by rewrite lookup_insert_eq.
      * rewrite (decide_False (P := Some kd = Some k)) by congruence.
        rewrite lookup_alter_ne by done.
        replace (acc1 !! k) with (acc !! k); [done |].
        unfold acc1. destruct (acc !! kd); [done | by rewrite lookup_insert_ne].
    + destruct (IH Hv acc) as (g & Hg & Hspec).
      exists g. split; [done |]. intros k. rewrite Hspec. clear Hspec Hg.
      cbv zeta. rewrite filter_key_cons, Hkd.
      case_decide as Hk; [| done].
      rewrite decide_False; [done |]. intros [= ->]. done.
Qed.

(** From no buckets: the bucket of a key is there when the key is in the
    range and some sample has it, and holds the samples of that key in the
    order of the input. *)
Lemma group_loop_empty key range w data :
  valid_refs w data →
  ∃ g, group_loop key range data ∅ w = (Ok g, w) ∧
    ∀ k, g !! k =
      let bucket := filter (fun d => key_of key w d = Some k) data in
      if decide (k ∈ range ∧ bucket ≠ []) then Some bucket else None.
Proof.
  intros Hv. destruct (group_loop_spec key range w data Hv ∅) as (g & Hg & Hspec).
  exists g. split; [done |]. intros k. rewrite Hspec. cbv zeta.
  rewrite lookup_empty.
  destruct (filter (fun d => key_of key w d = Some k) data) as [| x b].
  - rewrite (decide_False (P := _ ∧ _)) by (by intros [_ ?]).
    by destruct (decide (k ∈ range)).
  - destruct (decide (k ∈ range)).
    + by rewrite decide_True.
    + rewrite decide_False; [done | by intros [? _]].
Qed.

Lemma group_input_ok w self s l userDataList :
  w_series w !! self = Some s → w_lists w !! dl_data s = Some l →
  valid_refs w (effective_input l userDataList) →
  group_input self userDataList w = (Ok (effective_input l userDataList), w).
Proof.
  intros Hs Hl Hv. destruct userDataList as [[| d u] |]; simpl in *.
  - by eapply self_data_ok.
  - by apply (mapM_fromLBData_ok w (d :: u)).
  - by eapply self_data_ok.
Qed.

(** C8. [groupDataByHour], on the series' own data or on a list handed
    in: the result has a bucket for an hour exactly when the hour is in
    the range (1 to 24 when none is given) and some sample has that hour
    of day, and the bucket holds the samples of that hour in the order of
    the input; samples of other hours are in no bucket.  The store is
    unchanged but for the line printed. *)
Theorem groupDataByHour_spec
    (w : world) (self : nat) (s : DataList) (l : list nat)
    (hourRange : option (list Z)) (userDataList : option (list nat)) :
  w_series w !! self = Some s →
  w_lists w !! dl_data s = Some l →
  valid_refs w (effective_input l userDataList) →
  ∃ g,
    groupDataByHour self hourRange userDataList w
    = (Ok g, set_stdout (fun out => out ++ [MsgFoundHours (dom g)]) w) ∧
    ∀ h, g !! h =
      let bucket := filter (fun d => key_of hour w d = Some h)
                      (effective_input l userDataList) in
      if decide (h ∈ default default_hourRange hourRange ∧ bucket ≠ [])
      then Some bucket else None.
Proof.
  intros Hs Hl Hv.
  destruct (group_loop_empty hour (default default_hourRange hourRange) w _ Hv)
    as (g & Hg & Hspec).
  exists g. split; [| exact Hspec].
  unfold groupDataByHour.
  rewrite (bind_ok _ _ _ _ _ (group_input_ok _ _ _ _ _ Hs Hl Hv)).
  by rewrite (bind_ok _ _ _ _ _ Hg).
Qed.

(** The three-sample series, whose hours of day are 1, 13 and 13, groups
    into the bucket of hour 1 with sample 0 and the bucket of hour 13 with
    samples 1 and 2. *)
Lemma groupDataByHour_three :
  ∃ g,
    groupDataByHour 0 None None w_three
    = (Ok g, set_stdout (fun out => out ++ [MsgFoundHours (dom g)]) w_three) ∧
    g = {[ 1 := [0%nat]; 13 := [1; 2]%nat ]}.
Proof.
  destruct (groupDataByHour_spec w_three 0 (mkDataList 0 0) [0; 1; 2]%nat None None
              eq_refl eq_refl valid_refs_w_three) as (g & Hg & _).
  exists g. split; [exact Hg |].
  vm_compute in Hg. injection Hg as <- _.
  vm_compute. reflexivity.
Defined.

Lemma filter_ext_in {A} (P Q : A -> Prop) `{∀ x, Decision (P x)} `{∀ x, Decision (Q x)}
    (l : list A) :
  (∀ x, x ∈ l → P x ↔ Q x) → filter P l = filter Q l.
Proof.
  induction l as [| a l IH]; intros Hext; [done |].
  assert (filter P l = filter Q l) as IH'.
  { apply IH. intros x Hx. apply Hext. by right. }
  destruct (decide (P a)) as [Hp | Hp].
  - rewrite filter_cons_True by done.
    rewrite (filter_cons_True Q) by (by apply Hext; [left |]).
    by rewrite IH'.
  - rewrite filter_cons_False by done.
    rewrite (filter_cons_False Q); [done |].
    intros Hq. apply Hp. by apply Hext; [left |].
Qed.

Lemma filter_in_keys_nil keyf (l : list nat) :
  filter (fun d => in_keys keyf [] d = true) l = [].
Proof.
  induction l as [| d l IH]; [done |].
  rewrite filter_cons_False; [done |].
  unfold in_keys. destruct (keyf d) as [k |]; [| done].
  rewrite bool_decide_false; [done | apply not_elem_of_nil].
Qed.

(** Taking one more key [k] into account adds the samples of key [k]. *)
Lemma filter_in_keys_cons keyf k ks (l : list nat) :
  k ∉ ks →
  filter (fun d => in_keys keyf (k :: ks) d = true) l
  ≡ₚ filter (fun d => keyf d = Some k) l ++ filter (fun d => in_keys keyf ks d = true) l.
Proof.
  intros Hk. induction l as [| d l IH]; [done |].
  destruct (keyf d) as [k' |] eqn:Hd.
  - destruct (decide (k' = k)) as [-> | Hne].
    + rewrite filter_cons_True.
      2: { unfold in_keys. rewrite Hd. apply bool_decide_eq_true. left. }
      rewrite (filter_cons_True (fun d => keyf d = Some k)) by done.
      rewrite (filter_cons_False (fun d => in_keys keyf ks d = true)).
      2: { unfold in_keys. rewrite Hd. by rewrite bool_decide_false. }
      simpl. by rewrite IH.
    + rewrite (filter_cons_False (fun d => keyf d = Some k)) by congruence.
      destruct (decide (k' ∈ ks)) as [Hin | Hin].
      * rewrite filter_cons_True.
        2: { unfold in_keys. rewrite Hd. apply bool_decide_eq_true. by right. }
        rewrite (filter_cons_True (fun d => in_keys keyf ks d = true)).
        2: { unfold in_keys. rewrite Hd. by apply bool_decide_eq_true. }
        rewrite IH. apply Permutation_middle.
      * rewrite filter_cons_False.
        2: { unfold in_keys. rewrite Hd. rewrite bool_decide_false; [done |].
             intros [? | ?]%elem_of_cons; done. }
        rewrite (filter_cons_False (fun d => in_keys keyf ks d = true)); [done |].
        unfold in_keys. rewrite Hd. by rewrite bool_decide_false.
  - rewrite !filter_cons_False; [done | | | ]; unfold in_keys; by rewrite Hd.
Qed.

(** The buckets of distinct keys, one after the other, are a permutation
    of the samples whose key is one of them. *)
Lemma concat_buckets_perm keyf ks (l : list nat) :
  NoDup ks →
  concat (map (fun k => filter (fun d => keyf d = Some k) l) ks)
  ≡ₚ filter (fun d => in_keys keyf ks d = true) l.
Proof.
  induction 1 as [| k ks Hk Hnd IH].
  - by rewrite filter_in_keys_nil.
  - simpl. rewrite IH. symmetry. by apply filter_in_keys_cons.
Qed.

(** C9. [groupDataByMonth], on the series' own data or on a list handed
    in: every bucket holds the samples of its month in the order they have
    in the input, and for any enumeration [ks] of the keys of the result
    (each key once, in whatever order the dictionary yields them) the
    buckets put one after the other are a permutation of the samples of
    the input whose month is in the range (1 to 12 when none is given). *)
Theorem groupDataByMonth_flatten
    (w : world) (self : nat) (s : DataList) (l : list nat)
    (monthRange : option (list Z)) (userDataList : option (list nat)) :
  w_series w !! self = Some s →
  w_lists w !! dl_data s = Some l →
  valid_refs w (effective_input l userDataList) →
  ∃ g,
    groupDataByMonth self monthRange userDataList w
    = (Ok g, set_stdout (fun out => out ++ [MsgFoundMonths (dom g)]) w) ∧
    (∀ m b, g !! m = Some b →
       b = filter (fun d => key_of month w d = Some m) (effective_input l userDataList)) ∧
    ∀ ks, NoDup ks → (∀ k, k ∈ ks ↔ is_Some (g !! k)) →
      flatten_buckets g ks
      ≡ₚ filter (fun d => in_keys (key_of month w)
                            (default default_monthRange monthRange) d = true)
           (effective_input l userDataList).
Proof.
  intros Hs Hl Hv.
  set (range := default default_monthRange monthRange).
  set (data := effective_input l userDataList) in *.
  destruct (group_loop_empty month range w data Hv) as (g & Hg & Hspec).
  exists g. split; [| split].
  - unfold groupDataByMonth.
    rewrite (bind_ok _ _ _ _ _ (group_input_ok _ _ _ _ _ Hs Hl Hv)).
    by rewrite (bind_ok _ _ _ _ _ Hg).
  - intros m b Hb. rewrite Hspec in Hb. cbv zeta in Hb.
    case_decide; by inversion Hb.
  - intros ks Hnd Hks.
    transitivity (filter (fun d => in_keys (key_of month w) ks d = true) data).
    + rewrite <- (concat_buckets_perm (key_of month w) ks data Hnd).
      unfold flatten_buckets.
      replace (map (fun k => default [] (g !! k)) ks)
        with (map (fun k => filter (fun d => key_of month w d = Some k) data) ks); [done |].
      apply map_ext_in.
      intros k Hk. apply list_elem_of_In, Hks in Hk as [b Hb].
      rewrite Hb. simpl. rewrite Hspec in Hb. cbv zeta in Hb.
      case_decide; by inversion Hb.
    + erewrite filter_ext_in; [done |].
      intros d Hd. destruct (Hv d Hd) as [o Ho].
      unfold in_keys, key_of. rewrite Ho. simpl.
      rewrite !bool_decide_eq_true, Hks, Hspec. cbv zeta.
      assert (filter (fun x => key_of month w x = Some (month (datetime o))) data ≠ []) as Hne.
      { intros Hnil. eapply filter_nil_not_elem_of; [exact Hnil | | exact Hd].
        unfold key_of. by rewrite Ho. }
      split.
      * intros [b Hb]. case_decide as Hc; [by destruct Hc | done].
      * intros Hr. rewrite decide_True by done. eauto.
Qed.

(** The four-sample series grouped over the months 1 and 2: the sample of
    March is dropped, and the buckets taken in the order 2, 1 are a
    permutation of the three other samples. *)
Lemma groupDataByMonth_four :
  ∃ g,
    groupDataByMonth 0 (Some [1; 2]) None w_four
    = (Ok g, set_stdout (fun out => out ++ [MsgFoundMonths (dom g)]) w_four) ∧
    g = {[ 1 := [0; 1]%nat; 2 := [2%nat] ]} ∧
    flatten_buckets g [2; 1] ≡ₚ [0; 1; 2]%nat.
Proof.
  destruct (groupDataByMonth_flatten w_four 0 (mkDataList 0 0) [0; 1; 2; 3]%nat
              (Some [1; 2]) None eq_refl eq_refl valid_refs_w_four) as (g & Hg & _ & Hflat).
  exists g. split; [exact Hg |].
  assert (g = {[ 1 := [0; 1]%nat; 2 := [2%nat] ]}) as Eg.
  { vm_compute in Hg. injection Hg as <- _. vm_compute. reflexivity. }
  split; [exact Eg |].
  apply (Hflat [2; 1]).
  - apply NoDup_cons. split; [| apply NoDup_singleton].
    intros Hin. by apply list_elem_of_singleton in Hin.
  - intros k. rewrite Eg, <- elem_of_dom, dom_insert_L, dom_singleton_L.
    rewrite elem_of_union, !elem_of_singleton, elem_of_cons, list_elem_of_singleton.
    tauto.
Defined.

(** ** The list [values] returns *)

(** Once the list object of a series holds [l'], the series shows [l']. *)
Lemma put_list_seen w self s l' :
  w_series w !! self = Some s →
  let w1 := set_lists (insert (dl_data s) l') w in
  put_list (dl_data s) l' w = (Ok tt, w1) ∧
  DataList_len self w1 = (Ok (length l'), w1) ∧
  DataList_iter self w1 = (Ok l', w1) ∧
  ∀ i x, l' !! i = Some x → DataList_getitem self (Z.of_nat i) w1 = (Ok x, w1).
Proof.
  intros Hs w1.
  assert (w_series w1 !! self = Some s) as Hs1 by done.
  assert (w_lists w1 !! dl_data s = Some l') as Hl1 by apply lookup_insert_eq.
  split; [done |]. split; [| split].
  - unfold DataList_len. by rewrite (bind_ok _ _ _ _ _ (self_data_ok _ _ _ _ Hs1 Hl1)).
  - by apply (self_data_ok w1 self s l').
  - intros i x Hi. by apply (DataList_getitem_nat w1 self s l').
Qed.

(** C10. [values()] without the header returns the list object the series
    itself works on, and leaves the store alone.  Appending to that list,
    replacing an element of it or deleting one is at once what the series'
    own length, iteration and indexing show. *)
Theorem values_returns_backing_list
    (w : world) (self : nat) (s : DataList) (l : list nat) :
  w_series w !! self = Some s →
  w_lists w !! dl_data s = Some l →
  ∃ r,
    values self false w = (Ok (ListRef r), w) ∧ r = dl_data s ∧
    (∀ x, ∃ w1,
       py_list_append r x w = (Ok tt, w1) ∧
       DataList_len self w1 = (Ok (S (length l)), w1) ∧
       DataList_iter self w1 = (Ok (l ++ [x]), w1) ∧
       DataList_getitem self (Z.of_nat (length l)) w1 = (Ok x, w1)) ∧
    (∀ i x, (i < length l)%nat → ∃ w1,
       py_list_setitem r (Z.of_nat i) x w = (Ok tt, w1) ∧
       DataList_len self w1 = (Ok (length l), w1) ∧
       DataList_iter self w1 = (Ok (<[i := x]> l), w1) ∧
       DataList_getitem self (Z.of_nat i) w1 = (Ok x, w1)) ∧
    (∀ i, (i < length l)%nat → ∃ w1,
       py_list_delitem r (Z.of_nat i) w = (Ok tt, w1) ∧
       DataList_len self w1 = (Ok (Nat.pred (length l)), w1) ∧
       DataList_iter self w1 = (Ok (delete i l), w1)).
Proof.
  intros Hs Hl. exists (dl_data s).
  split; [| split; [done | split; [| split]]].
  - unfold values. by rewrite (bind_ok _ _ _ _ _ (get_series_ok _ _ _ Hs)).
  - intros x.
    destruct (put_list_seen w self s (l ++ [x]) Hs) as (Hput & Hlen & Hit & Hget).
    eexists. split; [| split; [| split]].
    + unfold py_list_append. rewrite (bind_ok _ _ _ _ _ (get_list_ok _ _ _ Hl)). exact Hput.
    + rewrite Hlen. rewrite length_app. simpl. by rewrite Nat.add_1_r.
    + exact Hit.
    + apply Hget. rewrite lookup_app_r by done. by rewrite Nat.sub_diag.
  - intros i x Hi.
    destruct (put_list_seen w self s (<[i := x]> l) Hs) as (Hput & Hlen & Hit & Hget).
    eexists. split; [| split; [| split]].
    + unfold py_list_setitem. rewrite (bind_ok _ _ _ _ _ (get_list_ok _ _ _ Hl)).
      rewrite norm_index_nat by done. exact Hput.
    + rewrite Hlen. by rewrite length_insert.
    + exact Hit.
    + apply Hget. by apply list_lookup_insert_eq.
  - intros i Hi.
    destruct (put_list_seen w self s (delete i l) Hs) as (Hput & Hlen & Hit & _).
    eexists. split; [| split].
    + unfold py_list_delitem. rewrite (bind_ok _ _ _ _ _ (get_list_ok _ _ _ Hl)).
      rewrite norm_index_nat by done. exact Hput.
    + rewrite Hlen, length_delete by (by apply lookup_lt_is_Some).
      by rewrite Nat.sub_1_r.
    + exact Hit.
Qed.

(** On the three-sample series: the list returned is object 0, and after
    sample 0 is appended to it the series has four elements. *)
Lemma values_returns_backing_list_three :
  ∃ r w1,
    values 0 false w_three = (Ok (ListRef r), w_three) ∧
    py_list_append r 0 w_three = (Ok tt, w1) ∧
    DataList_len 0 w1 = (Ok 4%nat, w1) ∧
    DataList_iter 0 w1 = (Ok [0; 1; 2; 0]%nat, w1).
Proof.
  destruct (values_returns_backing_list w_three 0 (mkDataList 0 0) [0; 1; 2]%nat
              eq_refl eq_refl) as (r & Hval & _ & Happ & _).
  destruct (Happ 0%nat) as (w1 & H1 & H2 & H3 & _).
  exists r, w1. by repeat split.
Defined.

(** ** Update: the method the loop calls does not exist *)

Lemma LBData_call_updateValue w d v :
  is_Some (w_samples w !! d) →
  LBData_call d "updateValue" v w = (Raise AttributeError, w).
Proof.
  intros [o Ho]. unfold LBData_call.
  by rewrite (bind_ok _ _ _ _ _ (get_sample_ok _ _ _ Ho)).
Qed.

(** As soon as one sample has an hour of year that is a key of
    [newValues], the loop ends in [AttributeError]; no value has been
    changed by then. *)
Lemma update_loop_raises newValues w l c :
  valid_refs w l →
  Exists (fun d => ∃ h, key_of HOY w d = Some h ∧ is_Some (newValues !! h)) l →
  update_loop newValues l c w = (Raise AttributeError, w).
Proof.
  intros Hv Hex. revert c.
  induction l as [| d l IH]; intros c; [by inversion Hex |].
  apply valid_refs_cons in Hv as [[o Ho] Hv].
  simpl. rewrite (bind_ok _ _ _ _ _ (get_sample_ok _ _ _ Ho)).
  destruct (newValues !! HOY (datetime o)) as [v |] eqn:Hn.
  - by rewrite (bind_raise _ _ _ _ _ (LBData_call_updateValue w d v ltac:(eauto))).
  - apply IH; [done |].
    apply Exists_cons in Hex as [(h & Hk & Hs) | Hex]; [| done].
    unfold key_of in Hk. rewrite Ho in Hk. injection Hk as <-.
    rewrite Hn in Hs. by destruct Hs.
Qed.

(** When no sample has such an hour of year, the loop passes over all of
    them and the count stays as it was. *)
Lemma update_loop_no_match newValues w l c :
  valid_refs w l →
  Forall (fun d => ∀ h, key_of HOY w d = Some h → newValues !! h = None) l →
  update_loop newValues l c w = (Ok c, w).
Proof.
  intros Hv Hall. induction l as [| d l IH]; [done |].
  apply valid_refs_cons in Hv as [[o Ho] Hv].
  apply Forall_cons in Hall as [Hd Hall].
  simpl. rewrite (bind_ok _ _ _ _ _ (get_sample_ok _ _ _ Ho)).
  rewrite (Hd (HOY (datetime o))); [by apply IH |].
  unfold key_of. by rewrite Ho.
Qed.

(** C1 (what the code does). [updateDataForHoursOfYear([v], [h])]: on a
    series with a sample whose hour of year is [h] the call ends in
    [AttributeError], raised by [data.updateValue], with the store as it
    was: no value is set, nothing is printed, the receiver is not
    returned.  On a series with no such sample it prints a count of 0,
    changes nothing else and returns the receiver. *)
Theorem updateDataForHoursOfYear_single
    (w : world) (self : nat) (s : DataList) (l : list nat) (hd : LBHeader) (v h : Z) :
  w_series w !! self = Some s →
  w_lists w !! dl_data s = Some l →
  w_headers w !! dl_header s = Some hd →
  valid_refs w l →
  (Exists (fun d => key_of HOY w d = Some h) l →
   updateDataForHoursOfYear self [v] [h] w = (Raise AttributeError, w)) ∧
  (Forall (fun d => key_of HOY w d ≠ Some h) l →
   updateDataForHoursOfYear self [v] [h] w
   = (Ok self, set_stdout (fun out => out ++ [MsgUpdated (dataType hd) false 0]) w)).
Proof.
  intros Hs Hl Hh Hv.
  assert (Hmap : map_hours [h] 0 [v] ∅ w = (Ok ({[h := v]} : gmap Z Z), w)) by done.
  split; intros H; unfold updateDataForHoursOfYear; simpl;
    rewrite (bind_ok _ _ _ _ _ Hmap);
    rewrite (bind_ok _ _ _ _ _ (self_data_ok _ _ _ _ Hs Hl)).
  - erewrite bind_raise; [done |].
    apply update_loop_raises; [done |].
    eapply Exists_impl; [exact H |].
    intros d Hd. exists h. split; [done |]. rewrite lookup_singleton_eq. eauto.
  - erewrite bind_ok.
    2: { apply update_loop_no_match; [done |].
         eapply Forall_impl; [exact H |].
         intros d Hd h' Hk. apply lookup_singleton_ne. congruence. }
    rewrite (bind_ok _ _ _ _ _ (get_series_ok _ _ _ Hs)).
    by rewrite (bind_ok _ _ _ _ _ (get_header_ok _ _ _ Hh)).
Qed.

(** On the three-sample series, whose sample 1 has the hour of year 13:
    the update of hour 13 raises, the update of hour 14 reports 0. *)
Lemma updateDataForHoursOfYear_three :
  updateDataForHoursOfYear 0 [99] [13] w_three = (Raise AttributeError, w_three) ∧
  updateDataForHoursOfYear 0 [99] [14] w_three
  = (Ok 0%nat, set_stdout (fun out => out ++ [MsgUpdated "unknown" false 0]) w_three).
Proof.
  split.
  - apply (updateDataForHoursOfYear_single w_three 0 (mkDataList 0 0) [0; 1; 2]%nat
             default_header 99 13 eq_refl eq_refl eq_refl valid_refs_w_three).
    apply Exists_cons_tl, Exists_cons_hd. reflexivity.
  - apply (updateDataForHoursOfYear_single w_three 0 (mkDataList 0 0) [0; 1; 2]%nat
             default_header 99 14 eq_refl eq_refl eq_refl valid_refs_w_three).
    repeat constructor; discriminate.
Defined.

(** ** The mask filter: the length test fails *)

(** C2 (what the code does). Also when the pattern is as long as the
    series, [filterByPattern] raises [TypeError], from [len(self.values)],
    and returns no series; the store is as it was. *)
Theorem filterByPattern_equal_lengths
    (w : world) (self : nat) (s : DataList) (l : list nat) (patternList : list bool) :
  w_series w !! self = Some s →
  w_lists w !! dl_data s = Some l →
  length patternList = length l →
  filterByPattern self patternList w = (Raise TypeError, w).
Proof. intros Hs _ _. by eapply filterByPattern_raises. Qed.

Lemma filterByPattern_three :
  filterByPattern 0 [true; false; true] w_three = (Raise TypeError, w_three).
Proof.
  exact (filterByPattern_equal_lengths w_three 0 (mkDataList 0 0) [0; 1; 2]%nat
           [true; false; true] eq_refl eq_refl eq_refl).
Defined.

(** ** Average *)

Lemma mapM_get_value_ok w data :
  valid_refs w data →
  mapM LBData_get_value data w
  = (Ok (map (fun d => default 0 (value <$> w_samples w !! d)) data), w).
Proof.
  induction data as [| d data IH]; intros Hv; [done |].
  apply valid_refs_cons in Hv as [[o Ho] Hv]. simpl.
  erewrite bind_ok.
  2: { unfold LBData_get_value. by rewrite (bind_ok _ _ _ _ _ (get_sample_ok _ _ _ Ho)). }
  rewrite (bind_ok _ _ _ _ _ (IH Hv)). unfold ret. by rewrite Ho.
Qed.

(** C7 (what the code does). On integer values [average] returns the
    quotient of the sum by the count rounded down, which is the mean only
    when the count divides the sum; on the empty list it raises
    [ZeroDivisionError]. *)
Theorem average_floors (w : world) (data : list nat) :
  valid_refs w data →
  average data w
  = (match data with
     | [] => Raise ZeroDivisionError
     | _ => Ok (py_sum (values_of w data) / Z.of_nat (length data))
     end, w).
Proof.
  intros Hv. unfold average.
  rewrite (bind_ok _ _ _ _ _ (mapM_get_value_ok w data Hv)).
  destruct data as [| d data]; [done |].
  unfold py_div.
  replace (Z.of_nat (length (d :: data)) =? 0) with false; [done |].
  symmetry. apply Z.eqb_neq. simpl length. lia.
Qed.

(** The values 1 and 2 average to 1, not to 3/2; the values 10, 20 and 30
    average to 20. *)
Lemma average_one_two :
  average [0; 1]%nat w_two = (Ok 1, w_two) ∧
  average [0; 1; 2]%nat w_three = (Ok 20, w_three) ∧
  average [] w_two = (Raise ZeroDivisionError, w_two).
Proof.
  split; [| split].
  - apply (average_floors w_two [0; 1]%nat).
    intros d Hd. apply list_elem_of_In in Hd. simpl in Hd.
    destruct Hd as [<- | [<- | []]]; vm_compute; eauto.
  - exact (average_floors w_three [0; 1; 2]%nat valid_refs_w_three).
  - apply (average_floors w_two []). intros d Hd. by apply elem_of_nil in Hd.
Defined.

(** ** Filtering by hours of year *)

Lemma filterByHOYs_view w self s l hd HOYs :
  w_series w !! self = Some s → w_lists w !! dl_data s = Some l →
  w_headers w !! dl_header s = Some hd → valid_refs w l →
  ∃ f w', filterByHOYs self HOYs w = (Ok f, w') ∧
          is_filtered_view w self (filter (fun d => hoy_in HOYs w d = true) l)
            (PeriodStr "unknown") f w'.
Proof.
  intros Hs Hl Hh Hv.
  set (kept := filter (fun d => hoy_in HOYs w d = true) l).
  assert (Hkept : valid_refs w kept).
  { eapply valid_refs_sublist; [apply sublist_filter | done]. }
  destruct (filtered_DataList_spec w self s hd kept (PeriodStr "unknown") Hs Hh Hkept)
    as (f & w' & Hrun & Hview).
  exists f, w'. split; [| exact Hview].
  unfold filterByHOYs.
  rewrite (bind_ok _ _ _ _ _ (self_data_ok _ _ _ _ Hs Hl)).
  erewrite bind_ok; [exact Hrun |].
  apply (list_comp_pure _ (hoy_in HOYs w)).
  intros d Hd. destruct (Hv d Hd) as [o Ho].
  rewrite (bind_ok _ _ _ _ _ (get_sample_ok _ _ _ Ho)).
  unfold hoy_in, sample_test. by rewrite Ho.
Qed.

(** What a filtered view gives to read: the new series, its content and
    header, and the source as it was. *)
Lemma is_filtered_view_content w self s l hd kept p f w' :
  w_series w !! self = Some s → w_lists w !! dl_data s = Some l →
  w_headers w !! dl_header s = Some hd →
  is_filtered_view w self kept p f w' →
  series_content w' f = Some kept ∧
  series_header w' f = Some (with_period hd p) ∧
  series_content w' self = Some l ∧
  series_header w' self = Some hd ∧
  w_samples w' = w_samples w.
Proof.
  intros Hs Hl Hh (s0 & hd0 & r & h & Hs0 & Hh0 & Hf & Hr & Hhf & Es & El & Eh & Em & _).
  rewrite Hs in Hs0. injection Hs0 as <-. rewrite Hh in Hh0. injection Hh0 as <-.
  assert (f ≠ self) as Hfs by (intros ->; apply Hf, elem_of_dom; eauto).
  assert (r ≠ dl_data s) as Hrs by (intros ->; apply Hr, elem_of_dom; eauto).
  assert (h ≠ dl_header s) as Hhs by (intros ->; apply Hhf, elem_of_dom; eauto).
  unfold series_content, series_header. rewrite Es, El, Eh.
  rewrite lookup_insert_eq. simpl. rewrite !lookup_insert_eq.
  rewrite (lookup_insert_ne _ f self) by done. rewrite Hs.
  rewrite !lookup_insert_ne by done. by rewrite Hl, Hh.
Qed.

Lemma valid_refs_same_samples w w' l :
  w_samples w' = w_samples w → valid_refs w l → valid_refs w' l.
Proof. intros E Hv d Hd. rewrite E. by apply Hv. Qed.

Lemma hoy_in_same_samples HOYs w w' d :
  w_samples w' = w_samples w → hoy_in HOYs w' d = hoy_in HOYs w d.
Proof. intros E. unfold hoy_in, sample_test. by rewrite E. Qed.

(** X1. [filterByHOYs] returns a new series that keeps exactly the
    samples whose hour of year is in [HOYs], in the order of the source,
    under a copy of the source's header whose period is "unknown"; the
    source keeps its content and header, and no sample is changed. *)
Theorem filterByHOYs_spec
    (w : world) (self : nat) (s : DataList) (l : list nat) (hd : LBHeader)
    (HOYs : list Z) :
  w_series w !! self = Some s →
  w_lists w !! dl_data s = Some l →
  w_headers w !! dl_header s = Some hd →
  valid_refs w l →
  ∃ f w',
    filterByHOYs self HOYs w = (Ok f, w') ∧
    f ≠ self ∧
    series_content w' f = Some (filter (fun d => hoy_in HOYs w d = true) l) ∧
    series_header w' f = Some (with_period hd (PeriodStr "unknown")) ∧
    series_content w' self = Some l ∧
    series_header w' self = Some hd ∧
    w_samples w' = w_samples w.
Proof.
  intros Hs Hl Hh Hv.
  destruct (filterByHOYs_view w self s l hd HOYs Hs Hl Hh Hv) as (f & w' & Hrun & Hview).
  exists f, w'. split; [done |]. split; [by eapply is_filtered_view_self |].
  by eapply is_filtered_view_content.
Qed.

Lemma filterByHOYs_spec_three :
  ∃ f w',
    filterByHOYs 0 [13; 757] w_three = (Ok f, w') ∧
    f ≠ 0%nat ∧
    series_content w' f = Some [1; 2]%nat ∧
    series_header w' f = Some (with_period default_header (PeriodStr "unknown")) ∧
    series_content w' 0 = Some [0; 1; 2]%nat ∧
    series_header w' 0 = Some default_header ∧
    w_samples w' = w_samples w_three.
Proof.
  exact (filterByHOYs_spec w_three 0 (mkDataList 0 0) [0; 1; 2]%nat default_header
           [13; 757] eq_refl eq_refl eq_refl valid_refs_w_three).
Defined.

(** Filtering a filtered view again. *)
Lemma filterByHOYs_twice_view w self s l hd H1 H2 :
  w_series w !! self = Some s → w_lists w !! dl_data s = Some l →
  w_headers w !! dl_header s = Some hd → valid_refs w l →
  ∃ f1 w1 f2 w2,
    filterByHOYs self H1 w = (Ok f1, w1) ∧
    filterByHOYs f1 H2 w1 = (Ok f2, w2) ∧
    series_content w1 f1 = Some (filter (fun d => hoy_in H1 w d = true) l) ∧
    series_header w1 f1 = Some (with_period hd (PeriodStr "unknown")) ∧
    series_content w2 f2
    = Some (filter (fun d => hoy_in H2 w d = true)
              (filter (fun d => hoy_in H1 w d = true) l)) ∧
    series_header w2 f2 = Some (with_period hd (PeriodStr "unknown")) ∧
    series_content w2 self = Some l.
Proof.
  intros Hs Hl Hh Hv.
  destruct (filterByHOYs_view w self s l hd H1 Hs Hl Hh Hv) as (f1 & w1 & Hrun1 & Hview1).
  destruct (is_filtered_view_content _ _ _ _ _ _ _ _ _ Hs Hl Hh Hview1)
    as (Hc1 & Hh1 & Hcs & Hhs & Em).
  set (kept := filter (fun d => hoy_in H1 w d = true) l) in *.
  unfold series_content in Hc1, Hcs. unfold series_header in Hh1.
  destruct (w_series w1 !! f1) as [s1 |] eqn:Hs1; [| done].
  destruct (w_series w1 !! self) as [s' |] eqn:Hs'; [| done].
  assert (Hv1 : valid_refs w1 kept).
  { apply (valid_refs_same_samples w); [done |].
    eapply valid_refs_sublist; [apply sublist_filter | done]. }
  destruct (filterByHOYs_view w1 f1 s1 kept _ H2 Hs1 Hc1 Hh1 Hv1)
    as (f2 & w2 & Hrun2 & Hview2).
  destruct (is_filtered_view_content _ _ _ _ _ _ _ _ _ Hs1 Hc1 Hh1 Hview2)
    as (Hc2 & Hh2 & Hc12 & _ & Em2).
  exists f1, w1, f2, w2.
  split; [done |]. split; [done |].
  split; [unfold series_content; by rewrite Hs1 |].
  split; [unfold series_header; by rewrite Hs1 |].
  split.
  { rewrite Hc2. f_equal. apply list_filter_iff. intros d.
    by rewrite (hoy_in_same_samples H2 w w1). }
  split; [done |].
  destruct Hview2 as (s0 & hd0 & r & h & _ & _ & Hf & Hr & _ & Es & El & _).
  assert (f2 ≠ self) as Hne by (intros ->; apply Hf, elem_of_dom; eauto).
  assert (r ≠ dl_data s') as Hrne by (intros ->; apply Hr, elem_of_dom; eauto).
  unfold series_content. rewrite Es, lookup_insert_ne, Hs' by done.
  by rewrite El, lookup_insert_ne.
Qed.

(** X2. Filtering by the hours [H1] and then the result by the hours [H2]
    gives a series that holds exactly the samples of the source whose hour
    of year is in both lists, in the order of the source; the source still
    holds what it held. *)
Theorem filterByHOYs_twice
    (w : world) (self : nat) (s : DataList) (l : list nat) (hd : LBHeader)
    (H1 H2 : list Z) :
  w_series w !! self = Some s →
  w_lists w !! dl_data s = Some l →
  w_headers w !! dl_header s = Some hd →
  valid_refs w l →
  ∃ f1 w1 f2 w2,
    filterByHOYs self H1 w = (Ok f1, w1) ∧
    filterByHOYs f1 H2 w1 = (Ok f2, w2) ∧
    series_content w2 f2
    = Some (filter (fun d => hoy_in H1 w d = true ∧ hoy_in H2 w d = true) l) ∧
    series_content w2 self = Some l.
Proof.
  intros Hs Hl Hh Hv.
  destruct (filterByHOYs_twice_view w self s l hd H1 H2 Hs Hl Hh Hv)
    as (f1 & w1 & f2 & w2 & R1 & R2 & _ & _ & C2 & _ & Cs).
  exists f1, w1, f2, w2. repeat (split; [done |]). split; [| done].
  rewrite C2. f_equal. rewrite list_filter_filter.
  apply list_filter_iff. intros d. tauto.
Qed.

Lemma filterByHOYs_twice_three :
  ∃ f1 w1 f2 w2,
    filterByHOYs 0 [1; 13] w_three = (Ok f1, w1) ∧
    filterByHOYs f1 [13; 757] w1 = (Ok f2, w2) ∧
    series_content w2 f2 = Some [1%nat] ∧
    series_content w2 0 = Some [0; 1; 2]%nat.
Proof.
  exact (filterByHOYs_twice w_three 0 (mkDataList 0 0) [0; 1; 2]%nat default_header
           [1; 13] [13; 757] eq_refl eq_refl eq_refl valid_refs_w_three).
Defined.

(** X3. Filtering is idempotent: filtering the result of [filterByHOYs]
    by the same hours again gives a series with the same content and the
    same header content. *)
Theorem filterByHOYs_idempotent
    (w : world) (self : nat) (s : DataList) (l : list nat) (hd : LBHeader)
    (HOYs : list Z) :
  w_series w !! self = Some s →
  w_lists w !! dl_data s = Some l →
  w_headers w !! dl_header s = Some hd →
  valid_refs w l →
  ∃ f1 w1 f2 w2,
    filterByHOYs self HOYs w = (Ok f1, w1) ∧
    filterByHOYs f1 HOYs w1 = (Ok f2, w2) ∧
    series_content w2 f2 = series_content w1 f1 ∧
    series_header w2 f2 = series_header w1 f1 ∧
    is_Some (series_content w1 f1).
Proof.
  intros Hs Hl Hh Hv.
  destruct (filterByHOYs_twice_view w self s l hd HOYs HOYs Hs Hl Hh Hv)
    as (f1 & w1 & f2 & w2 & R1 & R2 & C1 & Hd1 & C2 & Hd2 & _).
  exists f1, w1, f2, w2. repeat (split; [done |]).
  split; [| split; [by rewrite Hd1, Hd2 | by rewrite C1]].
  rewrite C1, C2. f_equal. rewrite list_filter_filter.
  apply list_filter_iff. intros d. tauto.
Qed.

Lemma filterByHOYs_idempotent_three :
  ∃ f1 w1 f2 w2,
    filterByHOYs 0 [13; 757] w_three = (Ok f1, w1) ∧
    filterByHOYs f1 [13; 757] w1 = (Ok f2, w2) ∧
    series_content w2 f2 = series_content w1 f1 ∧
    series_header w2 f2 = series_header w1 f1 ∧
    is_Some (series_content w1 f1).
Proof.
  exact (filterByHOYs_idempotent w_three 0 (mkDataList 0 0) [0; 1; 2]%nat default_header
           [13; 757] eq_refl eq_refl eq_refl valid_refs_w_three).
Defined.

(** ** What the statement check accepts *)

Lemma list_of_set_x_iff (l : list ascii) (x : ascii) :
  list_of_set l = [x] ↔ l ≠ [] ∧ Forall (fun c => c = x) l.
Proof.
  split.
  - intros Heq. split.
    + intros ->. unfold list_of_set in Heq. simpl in Heq.
      by rewrite elements_empty in Heq.
    + apply Forall_forall. intros c Hc. by eapply list_of_set_singleton.
  - intros [Hne Hall]. unfold list_of_set.
    replace (list_to_set l : gset ascii) with ({[x]} : gset ascii);
      [apply elements_singleton |].
    apply set_eq. intros c. rewrite elem_of_singleton, elem_of_list_to_set.
    split.
    + intros ->. destruct l as [| a l]; [done |].
      apply Forall_cons in Hall as [-> _]. by left.
    + intros Hc. by eapply Forall_forall in Hall.
Qed.

(** X4. [checkInputStatement] accepts a statement exactly when, once the
    statement is lower-cased and the keywords are removed, at least one
    letter is left and every letter left is [x]; otherwise it raises
    [ValueError].  So a statement with no letter at all is refused too.
    The store is never touched. *)
Theorem checkInputStatement_decides (statement : string) (w : world) :
  checkInputStatement statement w
  = (if bool_decide (letters_left statement ≠ [] ∧
                     Forall (fun c => c = "x"%char) (letters_left statement))
     then Ok tt else Raise ValueError, w).
Proof.
  unfold checkInputStatement. fold (letters_left statement).
  destruct (decide (list_of_set (letters_left statement) = ["x"%char])) as [Heq | Hne].
  - rewrite bool_decide_false by (by intros H).
    rewrite bool_decide_true; [done |]. by apply list_of_set_x_iff.
  - rewrite bool_decide_true by done.
    rewrite bool_decide_false; [done |]. by rewrite <- list_of_set_x_iff.
Qed.

Lemma replace_from_absent (c : ascii) (new s : string) :
  c ∉ chars s → replace_from (String c EmptyString) new O s = s.
Proof.
  induction s as [| a s IH]; intros Hc; [done |].
  simpl.
  assert (a ≠ c) as Hne by (intros ->; apply Hc; left).
  destruct (ascii_dec c a) as [-> | _]; [done |].
  rewrite IH; [done |]. intros Hin. apply Hc. by right.
Qed.



(** ** The update methods on any arguments *)

Lemma update_loop_same_world newValues w l c r w1 :
  update_loop newValues l c w = (r, w1) → w1 = w.
Proof.
  revert c. induction l as [| d l IH]; intros c H.
  - by inversion H.
  - simpl in H. unfold bind at 1 in H. unfold get_sample in H.
    destruct (w_samples w !! d) as [o |] eqn:Ho; [| by inversion H].
    destruct (newValues !! HOY (datetime o)) as [v |].
    + unfold bind at 1, LBData_call, bind, get_sample in H. rewrite Ho in H.
      destruct (LBData_hasattr "updateValue"); by inversion H.
    + by eapply IH.
Qed.

Lemma map_hours_same_world hs count vals acc w r w1 :
  map_hours hs count vals acc w = (r, w1) → w1 = w.
Proof.
  revert count acc. induction vals as [| v vals IH]; intros count acc H.
  - by inversion H.
  - simpl in H. destruct (hs !! count); [by eapply IH | by inversion H].
Qed.

Lemma map_dates_map_hours ts count vals acc :
  map_dates ts count vals acc = map_hours (map HOY ts) count vals acc.
Proof.
  revert count acc. induction vals as [| v vals IH]; intros count acc; [done |].
  simpl. rewrite list_lookup_fmap. destruct (ts !! count); [apply IH | done].
Qed.

(** The keys of the mapping built from as many values as there are hours
    left are the hours. *)
Lemma map_hours_keys hs w vals :
  ∀ count acc, (length vals + count = length hs)%nat →
  ∃ m, map_hours hs count vals acc w = (Ok m, w) ∧
       ∀ h, is_Some (m !! h) ↔ is_Some (acc !! h) ∨ h ∈ drop count hs.
Proof.
  induction vals as [| v vals IH]; intros count acc Hlen.
  - exists acc. split; [done |]. intros h.
    rewrite drop_ge by (simpl in Hlen; lia).
    split; [by left | intros [? | Hin]; [done | by apply elem_of_nil in Hin]].
  - simpl in Hlen.
    destruct (lookup_lt_is_Some_2 hs count ltac:(lia)) as [hoy Hhoy].
    simpl. rewrite Hhoy.
    destruct (IH (S count) (<[hoy := v]> acc) ltac:(lia)) as (m & Hm & Hkeys).
    exists m. split; [done |]. intros h. rewrite Hkeys.
    rewrite (drop_S _ _ _ Hhoy), elem_of_cons, lookup_insert_is_Some.
    destruct (decide (hoy = h)) as [-> | Hne]; intuition (auto; congruence).
Qed.

(** The part the two update methods share, on a mapping whose keys are
    [hs]. *)
Lemma update_tail_cases w self s l hd (newValues : gmap Z Z) hs plural :
  w_series w !! self = Some s → w_lists w !! dl_data s = Some l →
  w_headers w !! dl_header s = Some hd → valid_refs w l →
  (∀ h, is_Some (newValues !! h) ↔ h ∈ hs) →
  let tail :=
    (let* data := self_data self in
     let* updatedCount := update_loop newValues data 0 in
     let* s := get_series self in
     let* h := get_header (dl_header s) in
     print (MsgUpdated (dataType h) plural updatedCount);;
     ret self) in
  (Exists (fun d => hoy_in hs w d = true) l → tail w = (Raise AttributeError, w)) ∧
  (Forall (fun d => hoy_in hs w d = false) l →
   tail w = (Ok self, set_stdout (fun out => out ++ [MsgUpdated (dataType hd) plural 0]) w)).
Proof.
  intros Hs Hl Hh Hv Hkeys tail. unfold tail.
  split; intros H; rewrite (bind_ok _ _ _ _ _ (self_data_ok _ _ _ _ Hs Hl)).
  - erewrite bind_raise; [done |].
    apply update_loop_raises; [done |].
    eapply Exists_impl; [exact H |].
    intros d Hd. unfold hoy_in, sample_test in Hd.
    destruct (w_samples w !! d) as [o |] eqn:Ho; [| done].
    exists (HOY (datetime o)). split; [unfold key_of; by rewrite Ho |].
    apply Hkeys. by apply bool_decide_eq_true in Hd.
  - erewrite bind_ok.
    2: { apply update_loop_no_match; [done |].
         eapply Forall_impl; [exact H |].
         intros d Hd h Hk. unfold hoy_in, sample_test in Hd. unfold key_of in Hk.
         destruct (w_samples w !! d) as [o |] eqn:Ho; [| done].
         injection Hk as <-. apply bool_decide_eq_false in Hd.
         apply eq_None_not_Some. by rewrite Hkeys. }
    rewrite (bind_ok _ _ _ _ _ (get_series_ok _ _ _ Hs)).
    by rewrite (bind_ok _ _ _ _ _ (get_header_ok _ _ _ Hh)).
Qed.

(** X6. [updateDataForHoursOfYear] on any two lists.  With lists of
    different lengths it raises [TypeError] (the message of the intended
    [ValueError] cannot be formatted).  With lists of one length, if some
    sample of the series has an hour of year that is in [hoursOfYear] it
    raises [AttributeError]; if none has, it prints a count of 0 and
    returns the receiver.  When it raises, the store is as it was. *)
Theorem updateDataForHoursOfYear_cases
    (w : world) (self : nat) (s : DataList) (l : list nat) (hd : LBHeader)
    (vals hoursOfYear : list Z) :
  w_series w !! self = Some s →
  w_lists w !! dl_data s = Some l →
  w_headers w !! dl_header s = Some hd →
  valid_refs w l →
  (length vals ≠ length hoursOfYear →
   updateDataForHoursOfYear self vals hoursOfYear w = (Raise TypeError, w)) ∧
  (length vals = length hoursOfYear →
   Exists (fun d => hoy_in hoursOfYear w d = true) l →
   updateDataForHoursOfYear self vals hoursOfYear w = (Raise AttributeError, w)) ∧
  (length vals = length hoursOfYear →
   Forall (fun d => hoy_in hoursOfYear w d = false) l →
   updateDataForHoursOfYear self vals hoursOfYear w
   = (Ok self,
      set_stdout (fun out =>
        out ++ [MsgUpdated (dataType hd) (Nat.ltb 1 (length vals)) 0]) w)).
Proof.
  intros Hs Hl Hh Hv. unfold updateDataForHoursOfYear.
  split; [| split].
  - intros Hne. by rewrite (proj2 (Nat.eqb_neq _ _) Hne).
  - intros Heq Hex. rewrite (proj2 (Nat.eqb_eq _ _) Heq). simpl.
    destruct (map_hours_keys hoursOfYear w vals 0 ∅ ltac:(lia)) as (m & Hm & Hkeys).
    rewrite (bind_ok _ _ _ _ _ Hm).
    apply (update_tail_cases w self s l hd m hoursOfYear _ Hs Hl Hh Hv); [| done].
    intros h. rewrite Hkeys, lookup_empty, drop_0.
    split; [intros [[? ?] | ?]; done | by right].
  - intros Heq Hall. rewrite (proj2 (Nat.eqb_eq _ _) Heq). simpl.
    destruct (map_hours_keys hoursOfYear w vals 0 ∅ ltac:(lia)) as (m & Hm & Hkeys).
    rewrite (bind_ok _ _ _ _ _ Hm).
    apply (update_tail_cases w self s l hd m hoursOfYear _ Hs Hl Hh Hv); [| done].
    intros h. rewrite Hkeys, lookup_empty, drop_0.
    split; [intros [[? ?] | ?]; done | by right].
Qed.

(** On the three-sample series, whose hours of year are 1, 13 and 757. *)
Lemma updateDataForHoursOfYear_cases_three :
  updateDataForHoursOfYear 0 [5; 6] [13] w_three = (Raise TypeError, w_three) ∧
  updateDataForHoursOfYear 0 [5; 6] [2; 757] w_three = (Raise AttributeError, w_three) ∧
  updateDataForHoursOfYear 0 [5; 6] [2; 3] w_three
  = (Ok 0%nat, set_stdout (fun out => out ++ [MsgUpdated "unknown" true 0]) w_three).
Proof.
  destruct (updateDataForHoursOfYear_cases w_three 0 (mkDataList 0 0) [0; 1; 2]%nat
              default_header [5; 6] [13] eq_refl eq_refl eq_refl valid_refs_w_three)
    as (H1 & _ & _).
  destruct (updateDataForHoursOfYear_cases w_three 0 (mkDataList 0 0) [0; 1; 2]%nat
              default_header [5; 6] [2; 757] eq_refl eq_refl eq_refl valid_refs_w_three)
    as (_ & H2 & _).
  destruct (updateDataForHoursOfYear_cases w_three 0 (mkDataList 0 0) [0; 1; 2]%nat
              default_header [5; 6] [2; 3] eq_refl eq_refl eq_refl valid_refs_w_three)
    as (_ & _ & H3).
  split; [apply H1; discriminate |].
  split; [apply H2; [reflexivity | do 2 apply Exists_cons_tl; by apply Exists_cons_hd] |].
  apply H3; [reflexivity | by repeat constructor].
Defined.

Lemma same_heaps_refl w : same_heaps w w.
Proof. by repeat split. Qed.

Lemma same_heaps_trans w1 w2 w3 :
  same_heaps w1 w2 → same_heaps w2 w3 → same_heaps w1 w3.
Proof.
  intros (A1 & A2 & A3 & A4) (B1 & B2 & B3 & B4).
  repeat split; congruence.
Qed.

Lemma keeps_heaps_bind {A B} (m : M A) (k : A -> M B) :
  keeps_heaps m → (∀ a, keeps_heaps (k a)) → keeps_heaps (bind m k).
Proof.
  intros Hm Hk w. unfold bind. specialize (Hm w).
  destruct (m w) as [[a | e] w1]; simpl in *; [| done].
  eapply same_heaps_trans; [exact Hm | apply Hk].
Qed.

Lemma keeps_heaps_ret {A} (a : A) : keeps_heaps (ret a).
Proof. intros w. apply same_heaps_refl. Qed.

Lemma keeps_heaps_raise {A} e : keeps_heaps (raise (A := A) e).
Proof. intros w. apply same_heaps_refl. Qed.

Lemma keeps_heaps_print o : keeps_heaps (print o).
Proof. intros w. by repeat split. Qed.

Lemma keeps_heaps_get_sample d : keeps_heaps (get_sample d).
Proof.
  intros w. unfold get_sample. destruct (w_samples w !! d); apply same_heaps_refl.
Qed.

Lemma keeps_heaps_get_list r : keeps_heaps (get_list r).
Proof.
  intros w. unfold get_list. destruct (w_lists w !! r); apply same_heaps_refl.
Qed.

Lemma keeps_heaps_get_header h : keeps_heaps (get_header h).
Proof.
  intros w. unfold get_header. destruct (w_headers w !! h); apply same_heaps_refl.
Qed.

Lemma keeps_heaps_get_series s : keeps_heaps (get_series s).
Proof.
  intros w. unfold get_series. destruct (w_series w !! s); apply same_heaps_refl.
Qed.

Lemma keeps_heaps_self_data self : keeps_heaps (self_data self).
Proof.
  apply keeps_heaps_bind; [apply keeps_heaps_get_series |].
  intros s. apply keeps_heaps_get_list.
Qed.

Lemma keeps_heaps_update_loop newValues l c : keeps_heaps (update_loop newValues l c).
Proof.
  intros w. destruct (update_loop newValues l c w) as [r w1] eqn:H.
  apply update_loop_same_world in H as ->. apply same_heaps_refl.
Qed.

Lemma keeps_heaps_map_hours hs count vals acc : keeps_heaps (map_hours hs count vals acc).
Proof.
  intros w. destruct (map_hours hs count vals acc w) as [r w1] eqn:H.
  apply map_hours_same_world in H as ->. apply same_heaps_refl.
Qed.

Lemma keeps_heaps_update_tail self (newValues : gmap Z Z) plural :
  keeps_heaps
    (let* data := self_data self in
     let* updatedCount := update_loop newValues data 0 in
     let* s := get_series self in
     let* h := get_header (dl_header s) in
     print (MsgUpdated (dataType h) plural updatedCount);;
     ret self).
Proof.
  apply keeps_heaps_bind; [apply keeps_heaps_self_data | intros data].
  apply keeps_heaps_bind; [apply keeps_heaps_update_loop | intros c].
  apply keeps_heaps_bind; [apply keeps_heaps_get_series | intros s].
  apply keeps_heaps_bind; [apply keeps_heaps_get_header | intros h].
  apply keeps_heaps_bind; [apply keeps_heaps_print | intros _].
  apply keeps_heaps_ret.
Qed.

(** X7. No update method ever changes the store: whatever the arguments,
    and whether the call returns or raises, after
    [updateDataForHoursOfYear], [updateDataForAnHour] or
    [updateDataForAnAnalysisPeriod] every sample, list, header and series
    is as it was before; at most a line has been printed. *)
Theorem update_methods_keep_heaps
    (default_period : AnalysisPeriod) (self : nat) (vals hoursOfYear : list Z)
    (v hourOfYear : Z) (ap : option AnalysisPeriod) :
  keeps_heaps (updateDataForHoursOfYear self vals hoursOfYear) ∧
  keeps_heaps (updateDataForAnHour self v hourOfYear) ∧
  keeps_heaps (updateDataForAnAnalysisPeriod default_period self vals ap).
Proof.
  assert (H : ∀ vs hs, keeps_heaps (updateDataForHoursOfYear self vs hs)).
  { intros vs hs. unfold updateDataForHoursOfYear.
    destruct (negb _); [apply keeps_heaps_raise |].
    apply keeps_heaps_bind; [apply keeps_heaps_map_hours | intros m].
    apply keeps_heaps_update_tail. }
  split; [apply H | split; [apply H |]].
  unfold updateDataForAnAnalysisPeriod.
  destruct (negb _); [apply keeps_heaps_raise |].
  rewrite map_dates_map_hours.
  apply keeps_heaps_bind; [apply keeps_heaps_map_hours | intros m].
  apply keeps_heaps_update_tail.
Qed.

(** X8. [updateDataForAnAnalysisPeriod], for a period (the one given, or
    the default one) whose list of timestamps is as long as its count of
    hours.  When the number of values is not the count of hours it raises
    [TypeError]; otherwise, if some sample of the series has the hour of
    year of one of the period's timestamps it raises [AttributeError], and
    if none has it prints a count of 0 and returns the receiver. *)
Theorem updateDataForAnAnalysisPeriod_cases
    (default_period : AnalysisPeriod) (w : world) (self : nat) (s : DataList)
    (l : list nat) (hd : LBHeader) (vals : list Z) (ap : option AnalysisPeriod) :
  w_series w !! self = Some s →
  w_lists w !! dl_data s = Some l →
  w_headers w !! dl_header s = Some hd →
  valid_refs w l →
  let p := default default_period ap in
  Z.of_nat (length (dates p)) = totalNumOfHours p →
  (Z.of_nat (length vals) ≠ totalNumOfHours p →
   updateDataForAnAnalysisPeriod default_period self vals ap w = (Raise TypeError, w)) ∧
  (Z.of_nat (length vals) = totalNumOfHours p →
   Exists (fun d => hoy_in (period_hours p) w d = true) l →
   updateDataForAnAnalysisPeriod default_period self vals ap w
   = (Raise AttributeError, w)) ∧
  (Z.of_nat (length vals) = totalNumOfHours p →
   Forall (fun d => hoy_in (period_hours p) w d = false) l →
   updateDataForAnAnalysisPeriod default_period self vals ap w
   = (Ok self, set_stdout (fun out => out ++ [MsgUpdated (dataType hd) true 0]) w)).
Proof.
  intros Hs Hl Hh Hv p Hdates. unfold updateDataForAnAnalysisPeriod. fold p.
  assert (Hkeys : Z.of_nat (length vals) = totalNumOfHours p →
    ∃ m, map_dates (dates p) 0 vals ∅ w = (Ok m, w) ∧
         ∀ h, is_Some (m !! h) ↔ h ∈ period_hours p).
  { intros Heq. rewrite map_dates_map_hours.
    destruct (map_hours_keys (map HOY (dates p)) w vals 0 ∅) as (m & Hm & Hk).
    { rewrite length_map. lia. }
    exists m. split; [done |]. intros h. rewrite Hk, lookup_empty, drop_0.
    split; [intros [[? ?] | ?]; done | by right]. }
  split; [| split].
  - intros Hne. by rewrite (proj2 (Z.eqb_neq _ _) Hne).
  - intros Heq Hex. rewrite (proj2 (Z.eqb_eq _ _) Heq). simpl.
    destruct (Hkeys Heq) as (m & Hm & Hk). rewrite (bind_ok _ _ _ _ _ Hm).
    by apply (update_tail_cases w self s l hd m (period_hours p) true Hs Hl Hh Hv).
  - intros Heq Hall. rewrite (proj2 (Z.eqb_eq _ _) Heq). simpl.
    destruct (Hkeys Heq) as (m & Hm & Hk). rewrite (bind_ok _ _ _ _ _ Hm).
    by apply (update_tail_cases w self s l hd m (period_hours p) true Hs Hl Hh Hv).
Qed.

(** On the three-sample series, whose sample 1 has the hour of year 13,
    with the period of the hours 13 and 14. *)
Lemma updateDataForAnAnalysisPeriod_cases_three :
  updateDataForAnAnalysisPeriod february 0 [5] (Some two_hours) w_three
  = (Raise TypeError, w_three) ∧
  updateDataForAnAnalysisPeriod february 0 [5; 6] (Some two_hours) w_three
  = (Raise AttributeError, w_three).
Proof.
  destruct (updateDataForAnAnalysisPeriod_cases february w_three 0 (mkDataList 0 0)
              [0; 1; 2]%nat default_header [5] (Some two_hours)
              eq_refl eq_refl eq_refl valid_refs_w_three eq_refl) as (H1 & _ & _).
  destruct (updateDataForAnAnalysisPeriod_cases february w_three 0 (mkDataList 0 0)
              [0; 1; 2]%nat default_header [5; 6] (Some two_hours)
              eq_refl eq_refl eq_refl valid_refs_w_three eq_refl) as (_ & H2 & _).
  split; [apply H1; discriminate |].
  apply H2; [reflexivity | apply Exists_cons_tl; by apply Exists_cons_hd].
Defined.

(** ** Growing a series *)

Lemma checkInputData_default w data :
  valid_refs w (default [] data) →
  checkInputData data w = (Ok (default [] data), w).
Proof.
  intros Hv. destruct data as [l |]; [| done]. by apply checkInputData_ok.
Qed.

Lemma extend_ok w self s l dataList :
  w_series w !! self = Some s → w_lists w !! dl_data s = Some l →
  valid_refs w (default [] dataList) →
  extend self dataList w
  = (Ok tt, set_lists (insert (dl_data s) (l ++ default [] dataList)) w).
Proof.
  intros Hs Hl Hv. unfold extend.
  rewrite (bind_ok _ _ _ _ _ (get_series_ok _ _ _ Hs)).
  rewrite (bind_ok _ _ _ _ _ (checkInputData_default _ _ Hv)).
  by rewrite (bind_ok _ _ _ _ _ (get_list_ok _ _ _ Hl)).
Qed.

(** X9. [extend] lengthens the series in place: afterwards the series
    works on the same list object as before, which now holds the old
    content followed by the new samples in their order (nothing for [None]
    or an empty list); the new samples are the objects handed in, and no
    sample is changed. *)
Theorem extend_in_place
    (w : world) (self : nat) (s : DataList) (l : list nat)
    (dataList : option (list nat)) :
  w_series w !! self = Some s →
  w_lists w !! dl_data s = Some l →
  valid_refs w (default [] dataList) →
  ∃ w',
    extend self dataList w = (Ok tt, w') ∧
    values self false w = (Ok (ListRef (dl_data s)), w) ∧
    values self false w' = (Ok (ListRef (dl_data s)), w') ∧
    DataList_iter self w' = (Ok (l ++ default [] dataList), w') ∧
    DataList_len self w'
    = (Ok (length l + length (default [] dataList))%nat, w') ∧
    w_samples w' = w_samples w.
Proof.
  intros Hs Hl Hv.
  destruct (put_list_seen w self s (l ++ default [] dataList) Hs) as (_ & Hlen & Hit & _).
  eexists. split; [by apply extend_ok |].
  split; [unfold values; by rewrite (bind_ok _ _ _ _ _ (get_series_ok _ _ _ Hs)) |].
  split.
  { unfold values. erewrite bind_ok; [| apply get_series_ok; exact Hs]. done. }
  split; [exact Hit |]. split; [| done].
  rewrite Hlen. by rewrite length_app.
Qed.

Lemma extend_in_place_three :
  ∃ w',
    extend 0 (Some [2; 0]%nat) w_three = (Ok tt, w') ∧
    values 0 false w_three = (Ok (ListRef 0), w_three) ∧
    values 0 false w' = (Ok (ListRef 0), w') ∧
    DataList_iter 0 w' = (Ok [0; 1; 2; 2; 0]%nat, w') ∧
    DataList_len 0 w' = (Ok 5%nat, w') ∧
    w_samples w' = w_samples w_three.
Proof.
  apply (extend_in_place w_three 0 (mkDataList 0 0) [0; 1; 2]%nat (Some [2; 0]%nat)
           eq_refl eq_refl).
  intros d Hd. apply valid_refs_w_three.
  apply list_elem_of_In in Hd. simpl in Hd. apply list_elem_of_In. simpl. tauto.
Defined.

(** X10. [append] is [extend] with one sample: appending [x] and then [y]
    leaves the store exactly as extending by the list of [x] and [y]
    does, with [x] and [y] at the end of the series. *)
Theorem append_twice
    (w : world) (self : nat) (s : DataList) (l : list nat) (x y : nat) :
  w_series w !! self = Some s →
  w_lists w !! dl_data s = Some l →
  is_Some (w_samples w !! x) →
  is_Some (w_samples w !! y) →
  ∃ w1 w2,
    append self x w = (Ok tt, w1) ∧
    append self y w1 = (Ok tt, w2) ∧
    extend self (Some [x; y]) w = (Ok tt, w2) ∧
    DataList_iter self w2 = (Ok (l ++ [x; y]), w2).
Proof.
  intros Hs Hl Hx Hy.
  assert (Hvx : valid_refs w [x]).
  { intros d Hd. by apply list_elem_of_singleton in Hd as ->. }
  assert (Hvy : valid_refs (set_lists (insert (dl_data s) (l ++ [x])) w) [y]).
  { intros d Hd. by apply list_elem_of_singleton in Hd as ->. }
  assert (Hvxy : valid_refs w [x; y]).
  { intros d Hd. apply elem_of_cons in Hd as [-> | Hd]; [done |].
    by apply list_elem_of_singleton in Hd as ->. }
  set (w1 := set_lists (insert (dl_data s) (l ++ [x])) w).
  set (w2 := set_lists (insert (dl_data s) ((l ++ [x]) ++ [y])) w1).
  assert (E : w2 = set_lists (insert (dl_data s) (l ++ [x; y])) w).
  { unfold w2, w1, set_lists. simpl. rewrite insert_insert_eq.
    by rewrite <- app_assoc. }
  exists w1, w2. split; [| split; [| split]].
  - by apply (extend_ok w self s l (Some [x])).
  - apply (extend_ok w1 self s (l ++ [x]) (Some [y])); [done | | done].
    apply lookup_insert_eq.
  - rewrite E. by apply (extend_ok w self s l (Some [x; y])).
  - rewrite E. by destruct (put_list_seen w self s (l ++ [x; y]) Hs) as (_ & _ & Hit & _).
Qed.

Lemma append_twice_three :
  ∃ w1 w2,
    append 0 2 w_three = (Ok tt, w1) ∧
    append 0 0 w1 = (Ok tt, w2) ∧
    extend 0 (Some [2; 0]%nat) w_three = (Ok tt, w2) ∧
    DataList_iter 0 w2 = (Ok [0; 1; 2; 2; 0]%nat, w2).
Proof.
  apply (append_twice w_three 0 (mkDataList 0 0) [0; 1; 2]%nat 2 0 eq_refl eq_refl);
    vm_compute; eauto.
Defined.

(** ** Building a series *)

(** X11. [DataList(data, header)] is faithful: it makes a new series whose
    content is the samples of [data] in their order (no sample for [None]
    or an empty list), in a list object of its own, so the caller's list is
    not the one the series works on; its header is the object handed in,
    or a new default header when none is; no sample is changed. *)
Theorem DataList_init_faithful
    (w : world) (data : option (list nat)) (header : option nat) :
  valid_refs w (default [] data) →
  ∃ f w' s',
    DataList_init data header w = (Ok f, w') ∧
    (f ∉ dom (w_series w)) ∧
    w_series w' !! f = Some s' ∧
    (dl_data s' ∉ dom (w_lists w)) ∧
    DataList_iter f w' = (Ok (default [] data), w') ∧
    match header with
    | Some h => dl_header s' = h ∧ w_headers w' = w_headers w
    | None => (dl_header s' ∉ dom (w_headers w)) ∧
              w_headers w' !! dl_header s' = Some default_header
    end ∧
    w_samples w' = w_samples w.
Proof.
  intros Hv.
  set (r := fresh (dom (w_lists w))).
  set (w1 := set_lists (insert r (default [] data)) w).
  destruct header as [h |].
  - set (f := fresh (dom (w_series w))).
    exists f, (set_series (insert f (mkDataList r h)) w1), (mkDataList r h).
    split.
    { unfold DataList_init. by rewrite (bind_ok _ _ _ _ _ (checkInputData_default _ _ Hv)). }
    split; [apply is_fresh |]. split; [apply lookup_insert_eq |].
    split; [apply is_fresh |]. split; [| done].
    apply (self_data_ok _ f (mkDataList r h)); [apply lookup_insert_eq |].
    apply lookup_insert_eq.
  - set (h := fresh (dom (w_headers w))).
    set (f := fresh (dom (w_series w))).
    exists f, (set_series (insert f (mkDataList r h))
                 (set_headers (insert h default_header) w1)), (mkDataList r h).
    split.
    { unfold DataList_init. by rewrite (bind_ok _ _ _ _ _ (checkInputData_default _ _ Hv)). }
    split; [apply is_fresh |]. split; [apply lookup_insert_eq |].
    split; [apply is_fresh |]. split; [| split; [split |]; try done].
    + apply (self_data_ok _ f (mkDataList r h)); [apply lookup_insert_eq |].
      apply lookup_insert_eq.
    + apply is_fresh.
    + apply lookup_insert_eq.
Qed.

Lemma DataList_init_faithful_three :
  ∃ f w' s',
    DataList_init (Some [2; 0]%nat) None w_three = (Ok f, w') ∧
    (f ∉ dom (w_series w_three)) ∧
    w_series w' !! f = Some s' ∧
    (dl_data s' ∉ dom (w_lists w_three)) ∧
    DataList_iter f w' = (Ok [2; 0]%nat, w') ∧
    ((dl_header s' ∉ dom (w_headers w_three)) ∧
     w_headers w' !! dl_header s' = Some default_header) ∧
    w_samples w' = w_samples w_three.
Proof.
  apply (DataList_init_faithful w_three (Some [2; 0]%nat) None).
  intros d Hd. apply valid_refs_w_three.
  apply list_elem_of_In in Hd. simpl in Hd. apply list_elem_of_In. simpl. tauto.
Defined.

(** ** Indexing *)

(** An index is in range when it lies between minus the length and the
    length; its position is then the index modulo the length. *)
Lemma norm_index_spec (n : nat) (k : Z) :
  norm_index n k
  = if decide (- Z.of_nat n <= k < Z.of_nat n)
    then Some (Z.to_nat (k mod Z.of_nat n)) else None.
Proof.
  unfold norm_index.
  destruct (Z.leb_spec 0 k); destruct (Z.ltb_spec k (Z.of_nat n)); simpl.
  - rewrite decide_True by lia. by rewrite Z.mod_small by lia.
  - destruct (Z.leb_spec (- Z.of_nat n) k); destruct (Z.ltb_spec k 0); simpl;
      try lia. by rewrite decide_False by lia.
  - destruct (Z.leb_spec (- Z.of_nat n) k); destruct (Z.ltb_spec k 0); simpl;
      try lia.
    + rewrite decide_True by lia. f_equal. f_equal.
      rewrite <- (Z_mod_plus_full k 1). rewrite Z.mod_small by lia. lia.
    + by rewrite decide_False by lia.
  - lia.
Qed.

(** X12. Item assignment and item read agree, for every index Python
    accepts, negative ones included: after [series[k] = x] the series
    yields [x] at index [k], has the length it had, and differs from what
    it was only at the position [k] modulo the length. *)
Theorem setitem_getitem
    (w : world) (self : nat) (s : DataList) (l : list nat) (k : Z) (x : nat) :
  w_series w !! self = Some s →
  w_lists w !! dl_data s = Some l →
  - Z.of_nat (length l) <= k < Z.of_nat (length l) →
  ∃ w',
    DataList_setitem self k x w = (Ok tt, w') ∧
    DataList_getitem self k w' = (Ok x, w') ∧
    DataList_len self w' = (Ok (length l), w') ∧
    DataList_iter self w'
    = (Ok (<[Z.to_nat (k mod Z.of_nat (length l)) := x]> l), w').
Proof.
  intros Hs Hl Hk.
  set (i := Z.to_nat (k mod Z.of_nat (length l))).
  assert (Hi : (i < length l)%nat).
  { unfold i. pose proof (Z.mod_pos_bound k (Z.of_nat (length l)) ltac:(lia)). lia. }
  destruct (put_list_seen w self s (<[i := x]> l) Hs) as (Hput & Hlen & Hit & _).
  set (w' := set_lists (insert (dl_data s) (<[i := x]> l)) w) in *.
  exists w'. split; [| split; [| split]].
  - unfold DataList_setitem.
    rewrite (bind_ok _ _ _ _ _ (get_series_ok _ _ _ Hs)).
    unfold py_list_setitem.
    rewrite (bind_ok _ _ _ _ _ (get_list_ok _ _ _ Hl)).
    rewrite norm_index_spec, decide_True by done. exact Hput.
  - unfold DataList_getitem.
    erewrite bind_ok; [| apply get_series_ok; exact Hs].
    unfold py_list_getitem.
    erewrite bind_ok; [| apply get_list_ok; apply lookup_insert_eq].
    rewrite length_insert, norm_index_spec, decide_True by done.
    fold i. by rewrite list_lookup_insert_eq.
  - rewrite Hlen. by rewrite length_insert.
  - exact Hit.
Qed.

(** On the three-sample series, [series[-1] = 0] replaces the last
    sample. *)
Lemma setitem_getitem_three :
  ∃ w',
    DataList_setitem 0 (-1) 0 w_three = (Ok tt, w') ∧
    DataList_getitem 0 (-1) w' = (Ok 0%nat, w') ∧
    DataList_len 0 w' = (Ok 3%nat, w') ∧
    DataList_iter 0 w' = (Ok [0; 1; 0]%nat, w').
Proof.
  apply (setitem_getitem w_three 0 (mkDataList 0 0) [0; 1; 2]%nat (-1) 0 eq_refl eq_refl).
  simpl. lia.
Defined.

(** X13. An index below minus the length, or at or beyond the length, is
    refused by item read, item assignment and item deletion alike: each
    raises [IndexError] and leaves the store as it was.  On an empty
    series every index is refused. *)
Theorem index_out_of_range
    (w : world) (self : nat) (s : DataList) (l : list nat) (k : Z) (x : nat) :
  w_series w !! self = Some s →
  w_lists w !! dl_data s = Some l →
  ¬ (- Z.of_nat (length l) <= k < Z.of_nat (length l)) →
  DataList_getitem self k w = (Raise IndexError, w) ∧
  DataList_setitem self k x w = (Raise IndexError, w) ∧
  DataList_delitem self k w = (Raise IndexError, w).
Proof.
  intros Hs Hl Hk.
  unfold DataList_getitem, DataList_setitem, DataList_delitem.
  rewrite !(bind_ok _ _ _ _ _ (get_series_ok _ _ _ Hs)).
  unfold py_list_getitem, py_list_setitem, py_list_delitem.
  rewrite !(bind_ok _ _ _ _ _ (get_list_ok _ _ _ Hl)).
  by rewrite norm_index_spec, decide_False by done.
Qed.

Lemma index_out_of_range_three :
  DataList_getitem 0 3 w_three = (Raise IndexError, w_three) ∧
  DataList_setitem 0 3 0 w_three = (Raise IndexError, w_three) ∧
  DataList_delitem 0 3 w_three = (Raise IndexError, w_three).
Proof.
  apply (index_out_of_range w_three 0 (mkDataList 0 0) [0; 1; 2]%nat 3 0 eq_refl eq_refl).
  simpl. lia.
Defined.

(** X14. Deleting an item: for an index in range, [del series[k]] removes
    the sample at the position [k] modulo the length and nothing else; the
    series is one shorter and the samples after that position move up by
    one. *)
Theorem delitem_shifts
    (w : world) (self : nat) (s : DataList) (l : list nat) (k : Z) :
  w_series w !! self = Some s →
  w_lists w !! dl_data s = Some l →
  - Z.of_nat (length l) <= k < Z.of_nat (length l) →
  let i := Z.to_nat (k mod Z.of_nat (length l)) in
  ∃ w',
    DataList_delitem self k w = (Ok tt, w') ∧
    DataList_len self w' = (Ok (Nat.pred (length l)), w') ∧
    DataList_iter self w' = (Ok (take i l ++ drop (S i) l), w') ∧
    (∀ j y, (i <= j)%nat → l !! S j = Some y →
            DataList_getitem self (Z.of_nat j) w' = (Ok y, w')) ∧
    (∀ j y, (j < i)%nat → l !! j = Some y →
            DataList_getitem self (Z.of_nat j) w' = (Ok y, w')) ∧
    w_samples w' = w_samples w.
Proof.
  intros Hs Hl Hk i.
  assert (Hi : (i < length l)%nat).
  { unfold i. pose proof (Z.mod_pos_bound k (Z.of_nat (length l)) ltac:(lia)). lia. }
  destruct (put_list_seen w self s (delete i l) Hs) as (Hput & Hlen & Hit & Hget).
  set (w' := set_lists (insert (dl_data s) (delete i l)) w) in *.
  exists w'. split; [| split; [| split; [| split; [| split]]]].
  - unfold DataList_delitem.
    rewrite (bind_ok _ _ _ _ _ (get_series_ok _ _ _ Hs)).
    unfold py_list_delitem.
    rewrite (bind_ok _ _ _ _ _ (get_list_ok _ _ _ Hl)).
    rewrite norm_index_spec, decide_True by done. exact Hput.
  - rewrite Hlen, length_delete by (by apply lookup_lt_is_Some).
    by rewrite Nat.sub_1_r.
  - rewrite Hit. by rewrite delete_take_drop.
  - intros j y Hj Hy. apply Hget. by rewrite list_lookup_delete_ge.
  - intros j y Hj Hy. apply Hget. by rewrite list_lookup_delete_lt.
  - done.
Qed.

Lemma delitem_shifts_three :
  ∃ w',
    DataList_delitem 0 (-3) w_three = (Ok tt, w') ∧
    DataList_len 0 w' = (Ok 2%nat, w') ∧
    DataList_iter 0 w' = (Ok [1; 2]%nat, w') ∧
    DataList_getitem 0 0 w' = (Ok 1%nat, w').
Proof.
  assert (Hk : - Z.of_nat (length [0; 1; 2]%nat) <= -3 < Z.of_nat (length [0; 1; 2]%nat))
    by (simpl; lia).
  destruct (delitem_shifts w_three 0 (mkDataList 0 0) [0; 1; 2]%nat (-3) eq_refl eq_refl
              Hk) as (w' & H1 & H2 & H3 & H4 & _).
  exists w'. split; [exact H1 |]. split; [exact H2 |]. split; [exact H3 |].
  apply (H4 0%nat 1%nat); [vm_compute; lia | reflexivity].
Defined.

(** ** Monthly averages *)

Lemma average_ok w b :
  valid_refs w b → b ≠ [] → average b w = (Ok (floor_mean w b), w).
Proof.
  intros Hv Hne. unfold average.
  rewrite (bind_ok _ _ _ _ _ (mapM_get_value_ok w b Hv)).
  unfold py_div, floor_mean, values_of.
  replace (Z.of_nat (length b) =? 0) with false; [done |].
  symmetry. apply Z.eqb_neq. destruct b; [done | simpl; lia].
Qed.

(** Averaging the items of a dictionary whose buckets are not empty: every
    key gets the average of its bucket, and keys not among the items keep
    what [acc] had. *)
Lemma average_each_spec w items :
  NoDup items.*1 →
  (∀ k b, (k, b) ∈ items → valid_refs w b ∧ b ≠ []) →
  ∀ acc, ∃ r,
    average_each items acc w = (Ok r, w) ∧
    (∀ k b, (k, b) ∈ items → r !! k = Some (floor_mean w b)) ∧
    (∀ k, k ∉ items.*1 → r !! k = acc !! k).
Proof.
  induction items as [| [k0 b0] items IH]; intros Hnd Hit acc.
  - exists acc. split; [done |]. split; [| done].
    intros k b Hin. by apply elem_of_nil in Hin.
  - simpl in Hnd. apply NoDup_cons in Hnd as [Hk0 Hnd].
    destruct (Hit k0 b0 ltac:(left)) as [Hv0 Hne0].
    destruct (IH Hnd (fun k b Hin => Hit k b ltac:(by right))
                (<[k0 := floor_mean w b0]> acc)) as (r & Hr & Hin & Hout).
    exists r. split; [| split].
    + simpl. by rewrite (bind_ok _ _ _ _ _ (average_ok w b0 Hv0 Hne0)).
    + intros k b Hkb. apply elem_of_cons in Hkb as [[= -> ->] | Hkb]; [| by apply Hin].
      rewrite (Hout k0 Hk0). apply lookup_insert_eq.
    + intros k Hk. simpl in Hk. apply not_elem_of_cons in Hk as [Hne Hk].
      rewrite (Hout k Hk). by apply lookup_insert_ne.
Qed.

Lemma floor_mean_same_samples w w' b :
  w_samples w' = w_samples w → floor_mean w' b = floor_mean w b.
Proof. intros E. unfold floor_mean, values_of. by rewrite E. Qed.

(** The averages of the buckets of a dictionary, from no averages. *)
Lemma average_each_buckets w (g : gmap Z (list nat)) :
  (∀ k b, g !! k = Some b → valid_refs w b ∧ b ≠ []) →
  ∃ r, average_each (map_to_list g) ∅ w = (Ok r, w) ∧
       ∀ k, r !! k = floor_mean w <$> g !! k.
Proof.
  intros Hg.
  destruct (average_each_spec w (map_to_list g) (NoDup_fst_map_to_list g)
              (fun k b Hin => Hg k b (proj1 (elem_of_map_to_list g k b) Hin)) ∅)
    as (r & Hr & Hin & Hout).
  exists r. split; [done |]. intros k.
  destruct (g !! k) as [b |] eqn:Hk; simpl.
  - apply Hin. by apply elem_of_map_to_list.
  - rewrite Hout; [done |].
    intros Hel. apply list_elem_of_fmap in Hel as ([k' b] & -> & Hel).
    apply elem_of_map_to_list in Hel. simpl in Hk. congruence.
Qed.



Lemma key_of_same_samples key w w' d :
  w_samples w' = w_samples w → key_of key w' d = key_of key w d.
Proof. intros E. unfold key_of. by rewrite E. Qed.

(** One month of [averageMonthlyForEachHour]: grouping the month's bucket
    by hour and averaging each hour. *)
Lemma hour_means_of_bucket w w0 self b :
  w_samples w0 = w_samples w → valid_refs w b → b ≠ [] →
  ∃ gh inner,
    groupDataByHour self None (Some b) w0
    = (Ok gh, set_stdout (fun out => out ++ [MsgFoundHours (dom gh)]) w0) ∧
    average_each (map_to_list gh) ∅
      (set_stdout (fun out => out ++ [MsgFoundHours (dom gh)]) w0)
    = (Ok inner, set_stdout (fun out => out ++ [MsgFoundHours (dom gh)]) w0) ∧
    hour_means w b inner.
Proof.
  intros E Hv Hne.
  assert (Hv0 : valid_refs w0 b) by (by apply (valid_refs_same_samples w)).
  destruct (group_loop_empty hour default_hourRange w0 b Hv0) as (gh & Hg & Hspec).
  set (w1 := set_stdout (fun out => out ++ [MsgFoundHours (dom gh)]) w0).
  destruct (average_each_buckets w1 gh) as (inner & Hin & Hlook).
  { intros k hb Hb. rewrite Hspec in Hb. cbv zeta in Hb.
    case_decide as Hc; [| done]. injection Hb as <-. split; [| by destruct Hc].
    eapply valid_refs_sublist; [apply sublist_filter | done]. }
  exists gh, inner. split; [| split; [exact Hin |]].
  - unfold groupDataByHour, group_input. destruct b as [| d b]; [done |].
    rewrite (bind_ok _ _ _ _ _ (mapM_fromLBData_ok w0 (d :: b) Hv0)).
    by rewrite (bind_ok _ _ _ _ _ Hg).
  - intros h. rewrite Hlook, Hspec. cbv zeta.
    replace (filter (fun d => key_of hour w0 d = Some h) b)
      with (filter (fun d => key_of hour w d = Some h) b).
    2: { apply list_filter_iff. intros d. by rewrite (key_of_same_samples hour w w0). }
    case_decide; [| done]. simpl. f_equal.
    apply (floor_mean_same_samples w w1). by rewrite <- E.
Qed.

Lemma average_each_hour_spec w self items :
  NoDup items.*1 →
  (∀ m b, (m, b) ∈ items → valid_refs w b ∧ b ≠ []) →
  ∀ acc w0,
    w_samples w0 = w_samples w →
    (∀ m, m ∈ items.*1 → acc !! m = None) →
    ∃ r w',
      average_each_hour self items acc w0 = (Ok r, w') ∧
      same_heaps w0 w' ∧
      (∀ m b, (m, b) ∈ items → ∃ inner, r !! m = Some inner ∧ hour_means w b inner) ∧
      (∀ m, m ∉ items.*1 → r !! m = acc !! m).
Proof.
  induction items as [| [m0 b0] items IH]; intros Hnd Hit acc w0 E Hacc.
  - exists acc, w0. split; [done |]. split; [apply same_heaps_refl |].
    split; [| done]. intros m b Hin. by apply elem_of_nil in Hin.
  - simpl in Hnd. apply NoDup_cons in Hnd as [Hm0 Hnd].
    destruct (Hit m0 b0 ltac:(left)) as [Hv0 Hne0].
    destruct (hour_means_of_bucket w w0 self b0 E Hv0 Hne0)
      as (gh & inner & Hgroup & Hinner & Hmeans).
    set (w1 := set_stdout (fun out => out ++ [MsgFoundHours (dom gh)]) w0) in *.
    assert (Hnone : acc !! m0 = None) by (apply Hacc; left).
    set (acc' := <[m0 := inner]> (<[m0 := ∅]> acc)).
    destruct (IH Hnd (fun m b Hin => Hit m b ltac:(by right)) acc' w1)
      as (r & w' & Hr & Hheaps & Hin & Hout).
    { done. }
    { intros m Hm. unfold acc'.
      assert (m ≠ m0) by (intros ->; done).
      rewrite !lookup_insert_ne by done. apply Hacc. by right. }
    exists r, w'. split; [| split; [| split]].
    + simpl. rewrite Hnone. rewrite (bind_ok _ _ _ _ _ Hgroup).
      rewrite lookup_insert_eq. simpl.
      by rewrite (bind_ok _ _ _ _ _ Hinner).
    + eapply same_heaps_trans; [| exact Hheaps]. by repeat split.
    + intros m b Hmb. apply elem_of_cons in Hmb as [[= -> ->] | Hmb]; [| by apply Hin].
      exists inner. split; [| done].
      rewrite (Hout m0 Hm0). apply lookup_insert_eq.
    + intros m Hm. simpl in Hm. apply not_elem_of_cons in Hm as [Hne Hm].
      rewrite (Hout m Hm). unfold acc'. by rewrite !lookup_insert_ne.
Qed.



(** ** Time stamps *)

Lemma timeStamps_ok w self s l :
  w_series w !! self = Some s → w_lists w !! dl_data s = Some l →
  valid_refs w l →
  ∃ ts, timeStamps self w = (Ok ts, w) ∧
        Forall2 (fun d t => datetime <$> w_samples w !! d = Some t) l ts.
Proof.
  intros Hs Hl Hv.
  assert (∃ ts, mapM (fun d => let* o := get_sample d in ret (datetime o)) l w = (Ok ts, w)
                ∧ Forall2 (fun d t => datetime <$> w_samples w !! d = Some t) l ts)
    as (ts & Hts & Hall).
  { clear Hl. induction l as [| d l IH].
    - exists []. split; [done | constructor].
    - apply valid_refs_cons in Hv as [[o Ho] Hv].
      destruct (IH Hv) as (ts & Hts & Hall).
      exists (datetime o :: ts). split.
      + simpl. erewrite bind_ok.
        2: { by rewrite (bind_ok _ _ _ _ _ (get_sample_ok _ _ _ Ho)). }
        by rewrite (bind_ok _ _ _ _ _ Hts).
      + constructor; [by rewrite Ho | done]. }
  exists ts. split; [| done].
  unfold timeStamps. by rewrite (bind_ok _ _ _ _ _ (self_data_ok _ _ _ _ Hs Hl)).
Qed.

(** X17. [timeStamps] yields one timestamp per sample, in the order of
    the series: the timestamp at an index is that of the sample at the
    same index; the store is left as it was. *)
Theorem timeStamps_spec
    (w : world) (self : nat) (s : DataList) (l : list nat) :
  w_series w !! self = Some s →
  w_lists w !! dl_data s = Some l →
  valid_refs w l →
  ∃ ts,
    timeStamps self w = (Ok ts, w) ∧
    length ts = length l ∧
    ∀ i d, l !! i = Some d → ts !! i = datetime <$> w_samples w !! d.
Proof.
  intros Hs Hl Hv.
  destruct (timeStamps_ok w self s l Hs Hl Hv) as (ts & Hts & Hall).
  exists ts. split; [done |]. split; [symmetry; by eapply Forall2_length |].
  intros i d Hi.
  destruct (Forall2_lookup_l _ _ _ _ _ Hall Hi) as (t & Ht & Hdt).
  by rewrite Ht, Hdt.
Qed.

Lemma timeStamps_spec_three :
  ∃ ts,
    timeStamps 0 w_three = (Ok ts, w_three) ∧
    length ts = 3%nat ∧
    ts !! 1%nat = Some (mkDateTime 1 1 13 13).
Proof.
  destruct (timeStamps_spec w_three 0 (mkDataList 0 0) [0; 1; 2]%nat
              eq_refl eq_refl valid_refs_w_three) as (ts & Hts & Hlen & Hi).
  exists ts. split; [exact Hts |]. split; [exact Hlen |].
  exact (Hi 1%nat 1%nat eq_refl).
Defined.

(** X18. The timestamps of a series filtered by hours of year all have an
    hour of year of the list, and there are as many of them as samples of
    the source with such an hour. *)
Theorem timeStamps_of_filterByHOYs
    (w : world) (self : nat) (s : DataList) (l : list nat) (hd : LBHeader)
    (HOYs : list Z) :
  w_series w !! self = Some s →
  w_lists w !! dl_data s = Some l →
  w_headers w !! dl_header s = Some hd →
  valid_refs w l →
  ∃ f w' ts,
    filterByHOYs self HOYs w = (Ok f, w') ∧
    timeStamps f w' = (Ok ts, w') ∧
    Forall (fun t => HOY t ∈ HOYs) ts ∧
    length ts = length (filter (fun d => hoy_in HOYs w d = true) l).
Proof.
  intros Hs Hl Hh Hv.
  destruct (filterByHOYs_view w self s l hd HOYs Hs Hl Hh Hv) as (f & w' & Hrun & Hview).
  destruct (is_filtered_view_content _ _ _ _ _ _ _ _ _ Hs Hl Hh Hview)
    as (Hc & _ & _ & _ & Em).
  set (kept := filter (fun d => hoy_in HOYs w d = true) l) in *.
  unfold series_content in Hc.
  destruct (w_series w' !! f) as [s' |] eqn:Hs'; [| done].
  assert (Hv' : valid_refs w' kept).
  { apply (valid_refs_same_samples w); [done |].
    eapply valid_refs_sublist; [apply sublist_filter | done]. }
  destruct (timeStamps_ok w' f s' kept Hs' Hc Hv') as (ts & Hts & Hall).
  exists f, w', ts. split; [done |]. split; [done |].
  split; [| symmetry; by eapply Forall2_length].
  apply Forall_forall. intros t Ht.
  apply list_elem_of_lookup in Ht as [i Hi].
  destruct (Forall2_lookup_r _ _ _ _ _ Hall Hi) as (d & Hd & Hdt).
  assert (d ∈ kept) as Hin by (by eapply list_elem_of_lookup_2).
  apply list_elem_of_filter in Hin as [Hhoy _].
  unfold hoy_in, sample_test in Hhoy. rewrite Em in Hdt.
  destruct (w_samples w !! d) as [o |]; [| done].
  injection Hdt as <-. by apply bool_decide_eq_true in Hhoy.
Qed.

Lemma timeStamps_of_filterByHOYs_three :
  ∃ f w' ts,
    filterByHOYs 0 [13; 757] w_three = (Ok f, w') ∧
    timeStamps f w' = (Ok ts, w') ∧
    Forall (fun t => HOY t ∈ [13; 757]) ts ∧
    length ts = 2%nat.
Proof.
  exact (timeStamps_of_filterByHOYs w_three 0 (mkDataList 0 0) [0; 1; 2]%nat
           default_header [13; 757] eq_refl eq_refl eq_refl valid_refs_w_three).
Defined.

(** ** Duplicating a series *)

(** Deep-copying the samples of [l], started in a store [w] that extends
    [w0] with copies recorded in [memo]: every sample of the result is an
    object [w0] does not have, holding what its original holds in [w0];
    [memo] grows and relates each original to its copy. *)
Lemma deepcopy_refs_spec (w0 : world) (l : list nat) :
  valid_refs w0 l →
  ∀ memo w,
    w_samples w0 ⊆ w_samples w →
    (∀ d d', memo !! d = Some d' →
       (d' ∉ dom (w_samples w0)) ∧ is_Some (w_samples w0 !! d) ∧
       w_samples w !! d' = w_samples w0 !! d) →
    ∃ l' memo' w1,
      deepcopy_refs l memo w = (Ok (l', memo'), w1) ∧
      w_samples w ⊆ w_samples w1 ∧
      w_lists w1 = w_lists w ∧ w_headers w1 = w_headers w ∧
      w_series w1 = w_series w ∧ w_stdout w1 = w_stdout w ∧
      memo ⊆ memo' ∧
      Forall2 (fun d d' => memo' !! d = Some d' ∧ (d' ∉ dom (w_samples w0)) ∧
                           w_samples w1 !! d' = w_samples w0 !! d) l l'.
Proof.
  induction l as [| d l IH]; intros Hv memo w Hext Hmemo.
  - exists [], memo, w. by repeat split.
  - apply valid_refs_cons in Hv as [[o Ho] Hv].
    destruct (memo !! d) as [d' |] eqn:Hd.
    + destruct (IH Hv memo w Hext Hmemo)
        as (l' & memo' & w1 & Hrun & Hext1 & El & Eh & Es & Eo & Hsub & Hall).
      exists (d' :: l'), memo', w1.
      split; [simpl; rewrite Hd; by rewrite (bind_ok _ _ _ _ _ Hrun) |].
      repeat (split; [done |]).
      constructor; [| done].
      destruct (Hmemo d d' Hd) as (Hfresh & _ & Hval).
      split; [by eapply lookup_weaken |]. split; [done |].
      rewrite Ho in *. by eapply lookup_weaken.
    + set (d' := fresh (dom (w_samples w))).
      set (w2 := set_samples (insert d' o) w).
      assert (Hnone : w_samples w !! d' = None).
      { apply not_elem_of_dom. apply is_fresh. }
      assert (Hext2 : w_samples w ⊆ w_samples w2) by (by apply insert_subseteq).
      assert (Hfresh0 : d' ∉ dom (w_samples w0)).
      { intros Hin. apply elem_of_dom in Hin as [o' Ho'].
        eapply lookup_weaken in Ho'; [| exact Hext]. congruence. }
      destruct (IH Hv (<[d := d']> memo) w2) as
        (l' & memo' & w1 & Hrun & Hext1 & El & Eh & Es & Eo & Hsub & Hall).
      { by etrans. }
      { intros x x' Hx. apply lookup_insert_Some in Hx as [[<- <-] | [Hne Hx]].
        - split; [done |]. split; [eauto |].
          simpl. by rewrite lookup_insert_eq, Ho.
        - destruct (Hmemo x x' Hx) as (Hf & [ox Hox] & Hval).
          split; [done |]. split; [eauto |].
          simpl. rewrite lookup_insert_ne; [done |].
          intros <-. rewrite Hox in Hval. congruence. }
      exists (d' :: l'), memo', w1.
      split.
      { simpl. rewrite Hd.
        rewrite (bind_ok _ _ _ _ _ (get_sample_ok w d o (lookup_weaken _ _ _ _ Ho Hext))).
        erewrite (bind_ok (new_sample o)); [| reflexivity].
        by rewrite (bind_ok _ _ _ _ _ Hrun). }
      split; [by etrans |].
      repeat (split; [done |]).
      split.
      { etrans; [| exact Hsub]. by apply insert_subseteq. }
      constructor; [| done].
      split; [eapply lookup_weaken; [apply lookup_insert_eq | exact Hsub] |].
      split; [done |].
      rewrite Ho. eapply lookup_weaken; [| exact Hext1]. apply lookup_insert_eq.
Qed.



(** ** Arithmetic on a sample *)

(** X20. A sample computes as its value, with the operands in the order
    they are written: [n + d], [n - d] and [n * d] (the reflected methods)
    give [n + v], [n - v] and [n * v] for the value [v] of [d], while
    [d - n] gives [v - n].  Division follows Python 2 integers: for a
    divisor [n] other than zero, [d / n] and [d // n] give the same floored
    quotient [q], and [d % n] the remainder [r] with [v = q * n + r], [r]
    lying between zero and [n]; dividing by zero raises
    [ZeroDivisionError], also in the reflected forms when the value is
    zero.  The store is never changed. *)
Theorem LBData_arithmetic (w : world) (d : nat) (o : LBData) (n : Z) :
  w_samples w !! d = Some o →
  let v := value o in
  LBData_radd d n w = (Ok (VInt (n + v)), w) ∧
  LBData_rsub d n w = (Ok (VInt (n - v)), w) ∧
  LBData_rmul d n w = (Ok (VInt (n * v)), w) ∧
  LBData_sub d n w = (Ok (VInt (v - n)), w) ∧
  (n ≠ 0 →
   ∃ q r,
     LBData_div d n w = (Ok (VInt q), w) ∧
     LBData_floordiv d n w = (Ok (VInt q), w) ∧
     LBData_mod d n w = (Ok (VInt r), w) ∧
     v = q * n + r ∧ (0 <= r < n ∨ n < r <= 0)) ∧
  (n = 0 →
   LBData_div d n w = (Raise ZeroDivisionError, w) ∧
   LBData_floordiv d n w = (Raise ZeroDivisionError, w) ∧
   LBData_mod d n w = (Raise ZeroDivisionError, w)) ∧
  (v = 0 →
   LBData_rdiv d n w = (Raise ZeroDivisionError, w) ∧
   LBData_rfloordiv d n w = (Raise ZeroDivisionError, w) ∧
   LBData_rmod d n w = (Raise ZeroDivisionError, w)).
Proof.
  intros Ho v.
  unfold LBData_radd, LBData_rsub, LBData_rmul, LBData_sub, LBData_add, LBData_mul,
    LBData_div, LBData_floordiv, LBData_mod, LBData_rdiv, LBData_rfloordiv, LBData_rmod,
    LBData_binop, LBData_rbinop.
  rewrite !(bind_ok _ _ _ _ _ (get_sample_ok _ _ _ Ho)).
  unfold lift_outcome, eval_binop. fold v.
  split; [by rewrite Z.add_comm |]. split; [done |].
  split; [by rewrite Z.mul_comm |]. split; [done |].
  split; [| split].
  - intros Hn. exists (v / n), (v mod n).
    rewrite (proj2 (Z.eqb_neq n 0) Hn).
    repeat (split; [done |]). split.
    + rewrite Z.mul_comm. apply Z.div_mod. done.
    + destruct (Z.lt_trichotomy n 0) as [Hneg | [-> | Hpos]]; [right | done | left].
      * apply Z.mod_neg_bound. done.
      * apply Z.mod_pos_bound. done.
  - intros ->. by rewrite Z.eqb_refl.
  - intros ->. by rewrite Z.eqb_refl.
Qed.

(** The sample of value 20, with 7 and with -3. *)
Lemma LBData_arithmetic_twenty :
  LBData_rsub 1 7 w_three = (Ok (VInt (-13)), w_three) ∧
  LBData_sub 1 7 w_three = (Ok (VInt 13), w_three) ∧
  ∃ q r,
    LBData_div 1 (-3) w_three = (Ok (VInt q), w_three) ∧
    LBData_floordiv 1 (-3) w_three = (Ok (VInt q), w_three) ∧
    LBData_mod 1 (-3) w_three = (Ok (VInt r), w_three) ∧
    20 = q * -3 + r ∧ (0 <= r < -3 ∨ -3 < r <= 0).
Proof.
  destruct (LBData_arithmetic w_three 1 (sample_at 20 1 13 13) 7 eq_refl)
    as (_ & H2 & _ & H4 & _).
  destruct (LBData_arithmetic w_three 1 (sample_at 20 1 13 13) (-3) eq_refl)
    as (_ & _ & _ & _ & H5 & _).
  split; [exact H2 |]. split; [exact H4 |].
  apply H5. discriminate.
Defined.
